(** * The interactive code playground (src/components/code-playground.tsx)

    A shallow embedding of the [CodePlayground] component: its two state
    cells ([code], [output]), its three event handlers ([runCode],
    [copyCode] and the editor's [onChange]) and the conditional output
    panel of its render function.

    The handlers call into the JavaScript host: [new Function(code)()],
    [String(value)], [navigator.clipboard.writeText] and the [toast]
    notifications.  The host is a parameter of the model; a small sample
    host that interprets a handful of scripts is given after the
    playground's definitions and is used to run the handlers on concrete
    sources.

    The second part of the definitions covers the rest of the site: the
    question catalogue, the command menu, the floating navigation, the
    sidebar and the concept card. *)

From Stdlib Require Import String Ascii List ZArith Bool Lia DecimalString Permutation Sorted.
Import ListNotations.
Open Scope string_scope.

(** ** Completions

    Evaluating JavaScript either completes normally with a value,
    completes abruptly by throwing, or does not complete at all. *)
Inductive Completion (A E : Type) : Type :=
| Normal (a : A)
| Throw (e : E)
| Diverge.

Arguments Normal {A E} a.
Arguments Throw {A E} e.
Arguments Diverge {A E}.

(** ** Text helpers *)

(** [s.startsWith(p)]. *)
Definition starts_with (p s : string) : bool := String.prefix p s.

(** [s.includes(needle)]. *)
Fixpoint includes (needle s : string) : bool :=
  starts_with needle s
  || match s with
     | EmptyString => false
     | String _ rest => includes needle rest
     end.

(** A string is truthy when it is not empty. *)
Definition truthy (s : string) : bool :=
  match s with
  | EmptyString => false
  | String _ _ => true
  end.

(** Decimal digits of an integer, with a leading minus sign below zero. *)
Definition decimal (n : Z) : string := NilZero.string_of_int (Z.to_int n).

(** [Error.prototype.toString] on an error whose [name] and [message]
    properties hold the given strings. *)
Definition Error_prototype_toString (name message : string) : string :=
  if truthy name
  then if truthy message then name ++ ": " ++ message else name
  else message.

(** Notifications of the [sonner] toaster. *)
Inductive Toast : Type :=
| toast_success (message : string)
| toast_error (message : string).

(** ** The realm the page runs in

    [Host] is the ambient global state: the global object, the real
    console, the clipboard, the DOM.  [Number] is the type of
    double-precision Number values, which the handlers only ever print:
    [Number_toString] is [Number::toString] in radix 10. *)
Record Realm : Type := mkRealm {
  Host : Type;
  Number : Type;
  Number_toString : Number -> string
}.

Section Model.

Variable R : Realm.

(** ** JavaScript values

    An object is represented by what [ToString(ToPrimitive(o, string))]
    does: it runs the object's [Symbol.toPrimitive], [toString] or
    [valueOf] method against the host, and so may have effects, throw or
    not return. *)
#[warnings="-register-all"]
Inductive JsValue : Type :=
| JUndefined
| JNull
| JBoolean (b : bool)
| JNumber (x : Number R)
| JBigInt (n : Z)
| JString (s : string)
| JSymbol (description : option string)
| JObject (conv : Host R -> Completion (string * Host R) (JsValue * Host R)).

(** An operation of the host yielding an [A]. *)
Definition HostOp (A : Type) : Type :=
  Host R -> Completion (A * Host R) (JsValue * Host R).

(** [String(value)]. *)
Definition js_String (value : JsValue) : HostOp string :=
  fun h =>
    match value with
    | JUndefined => Normal ("undefined", h)
    | JNull => Normal ("null", h)
    | JBoolean b => Normal (if b then "true" else "false", h)
    | JNumber x => Normal (Number_toString R x, h)
    | JBigInt n => Normal (decimal n, h)
    | JString s => Normal (s, h)
    | JSymbol d =>
        Normal ("Symbol(" ++ match d with Some s => s | None => "" end ++ ")", h)
    | JObject conv => conv h
    end.

(** An [Error] instance ([new Error(message)], a [SyntaxError], a
    [TypeError], ...) with the inherited [Error.prototype.toString]. *)
Definition JError (name message : string) : JsValue :=
  JObject (fun h => Normal (Error_prototype_toString name message, h)).

(** ** The page: the component's state cells and what its handlers touch. *)
Record Page : Type := mkPage {
  code : string;          (* const [code, setCode] = useState(initialCode) *)
  output : string;        (* const [output, setOutput] = useState("") *)
  toasts : list Toast;    (* notifications shown so far, oldest first *)
  host : Host R
}.

(** The state of a freshly mounted [<CodePlayground initialCode=... />]. *)
Definition CodePlayground (initialCode : string) (h : Host R) : Page :=
  {| code := initialCode; output := ""; toasts := []; host := h |}.

(** ** Handlers: computations over the page that may throw or hang.

    A [Throw] carries the page as it is when the exception leaves. *)
Definition Eff (A : Type) : Type :=
  Page -> Completion (A * Page) (JsValue * Page).

Definition ret {A : Type} (a : A) : Eff A := fun p => Normal (a, p).

Definition bind {A B : Type} (m : Eff A) (k : A -> Eff B) : Eff B :=
  fun p =>
    match m p with
    | Normal (a, p') => k a p'
    | Throw e => Throw e
    | Diverge => Diverge
    end.

(** [try { body } catch (error) { handler }]. *)
Definition try_catch {A : Type} (body : Eff A) (handler : JsValue -> Eff A) : Eff A :=
  fun p =>
    match body p with
    | Normal r => Normal r
    | Throw (error, p') => handler error p'
    | Diverge => Diverge
    end.

(** Run a host operation on the page's host. *)
Definition on_host {A : Type} (op : HostOp A) : Eff A :=
  fun p =>
    let put h := {| code := code p; output := output p; toasts := toasts p; host := h |} in
    match op (host p) with
    | Normal (a, h) => Normal (a, put h)
    | Throw (e, h) => Throw (e, put h)
    | Diverge => Diverge
    end.

Definition setCode (s : string) : Eff unit :=
  fun p => Normal (tt, {| code := s; output := output p; toasts := toasts p; host := host p |}).

Definition setOutput (s : string) : Eff unit :=
  fun p => Normal (tt, {| code := code p; output := s; toasts := toasts p; host := host p |}).

Definition toast (t : Toast) : Eff unit :=
  fun p => Normal (tt, {| code := code p; output := output p; toasts := toasts p ++ [t]; host := host p |}).

End Model.

Arguments JUndefined {R}.
Arguments JNull {R}.
Arguments JBoolean {R} b.
Arguments JNumber {R} x.
Arguments JBigInt {R} n.
Arguments JString {R} s.
Arguments JSymbol {R} description.
Arguments JObject {R} conv.
Arguments js_String {R} value _.
Arguments JError {R} name message.
Arguments mkPage {R} _ _ _ _.
Arguments code {R} _.
Arguments output {R} _.
Arguments toasts {R} _.
Arguments host {R} _.
Arguments CodePlayground {R} initialCode h.
Arguments ret {R A} a _.
Arguments bind {R A B} m k _.
Arguments try_catch {R A} body handler _.
Arguments on_host {R A} op _.
Arguments setCode {R} s _.
Arguments setOutput {R} s _.
Arguments toast {R} t _.

Declare Scope eff_scope.
Delimit Scope eff_scope with eff.
Notation "x <- m ;; k" := (bind m (fun x => k))
  (at level 61, m at next level, right associativity) : eff_scope.
Notation "m ;; k" := (bind m (fun _ => k))
  (at level 61, right associativity) : eff_scope.

Section Handlers.

Context {R : Realm}.

(** [new Function(code)()]: compile the text as the body of a function of
    the global scope and call it without arguments.  A text that does not
    parse throws a [SyntaxError] before anything runs. *)
Variable new_Function_call : string -> HostOp R (JsValue R).

(** [navigator.clipboard]: [None] when the property is undefined, as it
    is outside a secure context.  Its [writeText(text)] starts the write
    and returns a promise, which settles later as fulfilled ([true]) or
    rejected ([false]). *)
Variable navigator_clipboard : option (string -> Host R -> bool * Host R).

Local Open Scope eff_scope.

(** The [try] block of [runCode] for the [code] its render closed over
    (code-playground.tsx, lines 24-26). *)
Definition runCode_try (code : string) : Eff R unit :=
  result <- on_host (new_Function_call code) ;;
  s <- on_host (js_String result) ;;
  setOutput s ;;
  toast (toast_success "Code executed successfully!").

(** The [catch (error)] block of [runCode] (lines 28-29). *)
Definition runCode_catch (error : JsValue R) : Eff R unit :=
  s <- on_host (js_String error) ;;
  setOutput s ;;
  toast (toast_error "Error executing code").

(** The body of [runCode] (lines 22-31). *)
Definition runCode_closure (code : string) : Eff R unit :=
  try_catch (runCode_try code) runCode_catch.

(** The Run button's handler. *)
Definition runCode : Eff R unit :=
  fun p => runCode_closure (code p) p.

(** [navigator.clipboard.writeText(text)] (line 34).  Reading
    [writeText] off an undefined [navigator.clipboard] throws a
    [TypeError] (the message is V8's). *)
Definition navigator_clipboard_writeText (text : string) : HostOp R bool :=
  fun h =>
    match navigator_clipboard with
    | Some writeText => Normal (writeText text h)
    | None =>
        Throw (JError "TypeError"
                 "Cannot read properties of undefined (reading 'writeText')", h)
    end.

(** The Copy button's handler (lines 33-36).  The promise is dropped. *)
Definition copyCode : Eff R unit :=
  fun p =>
    (_ <- on_host (navigator_clipboard_writeText (code p)) ;;
     toast (toast_success "Code copied to clipboard!")) p.

(** [value || ""] for [value : string | undefined]. *)
Definition or_empty (value : option string) : string :=
  match value with
  | Some s => if truthy s then s else ""
  | None => ""
  end.

(** The editor's [onChange] (line 58). *)
Definition onChange (value : option string) : Eff R unit :=
  setCode (or_empty value).

(** The output panel of the render function (lines 75-79):
    [{output && <div ...>{output}</div>}]. *)
Definition output_panel (p : Page R) : option string :=
  if truthy (output p) then Some (output p) else None.

(** What a handler's run leaves behind apart from the notifications: the
    displayed text and the host state, or the escaping exception and the
    host state. *)
Definition outcome (r : Completion (unit * Page R) (JsValue R * Page R))
  : Completion (string * Host R) (JsValue R * Host R) :=
  match r with
  | Normal (_, p) => Normal (output p, host p)
  | Throw (e, p) => Throw (e, host p)
  | Diverge => Diverge
  end.

End Handlers.

(** ** A sample host

    A host with a console and a global object that understands a handful
    of scripts, each with the meaning ECMAScript gives it.  Every other
    text is rejected when it is compiled.  It serves to run the handlers
    on concrete sources. *)
Module SampleHost.

Record Globals : Type := mkGlobals {
  console : list string;              (* lines written to the real console *)
  globalThis : list (string * Z)      (* own number-valued properties of the global object *)
}.

(** The sample realm computes with integer-valued Numbers of magnitude
    below 2^53, which double precision holds exactly and
    [Number::toString] prints as plain decimal digits. *)
Definition realm : Realm :=
  {| Host := Globals; Number := Z; Number_toString := decimal |}.

Definition globals (lines : list string) (properties : list (string * Z)) : Host realm :=
  {| console := lines; globalThis := properties |}.

Definition fresh : Host realm := globals [] [].

(** Sums of integer literals. *)
Inductive NumExpr : Type :=
| NLit (n : Z)
| NAdd (a b : NumExpr).

Inductive Expr : Type :=
| ENum (e : NumExpr)
| EStr (s : string)
| ENewError (message : string)        (* new Error('message') *)
| EObjectCreateNull.                  (* Object.create(null) *)

Inductive Stmt : Type :=
| SReturn (e : Expr)                  (* return e; *)
| SThrow (e : Expr)                   (* throw e; *)
| SWhileTrue                          (* while(true){} *)
| SConsoleLog (s : string)            (* console.log('s'); *)
| SSetGlobal (name : string) (e : NumExpr).   (* globalThis.name = e; *)

Fixpoint eval_num (e : NumExpr) : Z :=
  match e with
  | NLit n => n
  | NAdd a b => eval_num a + eval_num b
  end.

(** An object without a prototype has no [toString] or [valueOf]:
    converting it to a primitive throws a [TypeError] (the message is
    V8's). *)
Definition null_prototype_object : JsValue realm :=
  JObject (fun h => Throw (JError "TypeError" "Cannot convert object to primitive value", h)).

Definition eval_expr (e : Expr) : JsValue realm :=
  match e with
  | ENum n => JNumber (R := realm) (eval_num n)
  | EStr s => JString s
  | ENewError message => JError "Error" message
  | EObjectCreateNull => null_prototype_object
  end.

(** Calling a function with the given body.  Falling off the end returns
    [undefined]. *)
Fixpoint exec (body : list Stmt) : HostOp realm (JsValue realm) :=
  fun h =>
    match body with
    | [] => Normal (JUndefined, h)
    | SReturn e :: _ => Normal (eval_expr e, h)
    | SThrow e :: _ => Throw (eval_expr e, h)
    | SWhileTrue :: _ => Diverge
    | SConsoleLog s :: rest =>
        exec rest {| console := console h ++ [s]; globalThis := globalThis h |}
    | SSetGlobal name e :: rest =>
        exec rest {| console := console h; globalThis := (name, eval_num e) :: globalThis h |}
    end.

(** The scripts the sample host parses. *)
Definition scripts : list (string * list Stmt) :=
  [ ("", []);
    ("return 2 + 2;", [SReturn (ENum (NAdd (NLit 2) (NLit 2)))]);
    ("return '';", [SReturn (EStr "")]);
    ("return Object.create(null);", [SReturn EObjectCreateNull]);
    ("throw new Error('bad');", [SThrow (ENewError "bad")]);
    ("throw Object.create(null);", [SThrow EObjectCreateNull]);
    ("while(true){}", [SWhileTrue]);
    ("globalThis.leaked = 1; console.log('hi');", [SSetGlobal "leaked" (NLit 1); SConsoleLog "hi"]) ].

Fixpoint parse (table : list (string * list Stmt)) (source : string) : option (list Stmt) :=
  match table with
  | [] => None
  | (text, body) :: rest => if String.eqb text source then Some body else parse rest source
  end.

Definition new_Function_call (source : string) : HostOp realm (JsValue realm) :=
  match parse scripts source with
  | Some body => exec body
  | None => fun h => Throw (JError "SyntaxError" "Unexpected token", h)
  end.

(** The sample clipboard refuses every write: the promise is rejected. *)
Definition clipboard_writeText (text : string) (h : Host realm) : bool * Host realm :=
  (false, h).

(** A freshly mounted playground on a fresh host. *)
Definition mount (initialCode : string) : Page realm :=
  CodePlayground initialCode fresh.

End SampleHost.

(** * The question catalogue and the navigation around it

    The rest of the site: the catalogue's types (src/types/questions.ts),
    the two modules that build the category lists, the command menu, the
    floating navigation, the sidebar and the concept card.  A string
    stands for the sequence of code units of the JavaScript string. *)

(** ** JavaScript helpers *)

(** [s.substring(start, end)]: both bounds are clamped to the length and
    swapped when out of order. *)
Definition js_substring (start end_ : nat) (s : string) : string :=
  let a := Nat.min start (String.length s) in
  let b := Nat.min end_ (String.length s) in
  String.substring (Nat.min a b) (Nat.max a b - Nat.min a b) s.

(** The text after the first [n] code units. *)
Fixpoint drop (n : nat) (s : string) : string :=
  match n, s with
  | O, _ => s
  | S _, EmptyString => EmptyString
  | S n', String _ rest => drop n' rest
  end.

(** [s.replace(pattern, replacement)] for a string pattern and a
    replacement without [$]: the first occurrence is replaced. *)
Fixpoint js_replace (pattern replacement s : string) : string :=
  if starts_with pattern s
  then replacement ++ drop (String.length pattern) s
  else match s with
       | EmptyString => EmptyString
       | String c rest => String c (js_replace pattern replacement rest)
       end.

(** The names every ordinary object inherits from [Object.prototype] in
    a browser.  Each of them holds a function, except [__proto__], which
    reads as the prototype object: all are truthy, none has a [push]. *)
Definition Object_prototype_properties : list string :=
  [ "constructor"; "hasOwnProperty"; "isPrototypeOf"; "propertyIsEnumerable";
    "toLocaleString"; "toString"; "valueOf"; "__proto__";
    "__defineGetter__"; "__defineSetter__"; "__lookupGetter__"; "__lookupSetter__" ].

Definition inherited (key : string) : bool :=
  existsb (String.eqb key) Object_prototype_properties.

(** An array index: the canonical decimal text of an integer from 0 to
    2^32 - 2.  Such property keys are enumerated first, in numeric
    order. *)
Definition array_index (key : string) : option N :=
  match NilZero.uint_of_string key with
  | Some u =>
      let n := N.of_uint u in
      if String.eqb (NilZero.string_of_uint (N.to_uint n)) key && (n <=? 4294967294)%N
      then Some n
      else None
  | None => None
  end.

Section JsObject.

Variable A : Type.

(** The own properties of an object that starts as [{}], in the order of
    their creation. *)
Definition Obj : Type := list (string * A).

Fixpoint own (key : string) (o : Obj) : option A :=
  match o with
  | [] => None
  | (k, v) :: rest => if String.eqb k key then Some v else own key rest
  end.

(** Updating the value held by an own property leaves its place. *)
Fixpoint update (key : string) (f : A -> A) (o : Obj) : Obj :=
  match o with
  | [] => []
  | (k, v) :: rest =>
      if String.eqb k key then (k, f v) :: rest else (k, v) :: update key f rest
  end.

(** Inserting an entry among entries sorted by index. *)
Fixpoint insert_by_index (n : N) (entry : string * A) (sorted : list (N * (string * A)))
  : list (N * (string * A)) :=
  match sorted with
  | [] => [(n, entry)]
  | (m, e) :: rest =>
      if (n <=? m)%N then (n, entry) :: sorted else (m, e) :: insert_by_index n entry rest
  end.

Fixpoint index_entries (o : Obj) : list (N * (string * A)) :=
  match o with
  | [] => []
  | (k, v) :: rest =>
      match array_index k with
      | Some n => insert_by_index n (k, v) (index_entries rest)
      | None => index_entries rest
      end
  end.

Fixpoint named_entries (o : Obj) : Obj :=
  match o with
  | [] => []
  | (k, v) :: rest =>
      match array_index k with
      | Some _ => named_entries rest
      | None => (k, v) :: named_entries rest
      end
  end.

(** [Object.entries(o)]: the array-index keys in ascending order, then
    the other keys in the order of their creation. *)
Definition Object_entries (o : Obj) : list (string * A) :=
  map snd (index_entries o) ++ named_entries o.

End JsObject.

Arguments own {A} key o.
Arguments update {A} key f o.
Arguments insert_by_index {A} n entry sorted.
Arguments index_entries {A} o.
Arguments named_entries {A} o.
Arguments Object_entries {A} o.

(** ** The catalogue's types (src/types/questions.ts) *)
Module Catalogue.

(** The diagram kinds: ["flow" | "mermaid" | "timeline"]. *)
Inductive VisualizationType : Type := flow | mermaid | timeline.

Section Types.

(** [Num] stands for [number], [Any] for [any]. *)
Variables (Num Any : Type).

Record Node : Type := mkNode {
  node_id : string;
  node_type : option string;
  node_label : string;        (* data.label *)
  position_x : Num;
  position_y : Num
}.

Record Edge : Type := mkEdge {
  edge_id : string;
  source : string;
  target : string;
  edge_type : string;
  edge_label : option string
}.

(** [Visualization]: [type] and the optional fields of [data]. *)
Record Visualization : Type := mkVisualization {
  type : VisualizationType;
  nodes : option (list Node);
  edges : option (list Edge);
  chart : option string;
  events : option (list Any)
}.

Record Question : Type := mkQuestion {
  id : string;
  category : string;
  number : Num;
  title : string;
  description : string;
  example : string;
  bestPractices : list string;
  commonMistakes : list string;
  tips : list string;
  visualization : option Visualization
}.

Record Category : Type := mkCategory {
  category_id : string;
  name : string;
  icon : string;
  category_description : string;
  questions : list Question
}.

End Types.

Arguments mkNode {Num} _ _ _ _ _.
Arguments mkVisualization {Num Any} _ _ _ _ _.
Arguments type {Num Any} _.
Arguments nodes {Num Any} _.
Arguments edges {Num Any} _.
Arguments chart {Num Any} _.
Arguments events {Num Any} _.
Arguments mkQuestion {Num Any} _ _ _ _ _ _ _ _ _ _.
Arguments id {Num Any} _.
Arguments category {Num Any} _.
Arguments number {Num Any} _.
Arguments title {Num Any} _.
Arguments description {Num Any} _.
Arguments example {Num Any} _.
Arguments bestPractices {Num Any} _.
Arguments commonMistakes {Num Any} _.
Arguments tips {Num Any} _.
Arguments visualization {Num Any} _.
Arguments mkCategory {Num Any} _ _ _ _ _.
Arguments category_id {Num Any} _.
Arguments name {Num Any} _.
Arguments icon {Num Any} _.
Arguments category_description {Num Any} _.
Arguments questions {Num Any} _.

End Catalogue.

(** ** The catalogue built by filtering (src/lib/data/questions.ts) *)
Module QuestionsData.

Section Data.

Variables (Num Any : Type).

(** The constant array [questions] of lines 8-747. *)
Variable questions : list (Catalogue.Question Num Any).

(** [getAllQuestions()] (lines 4-6). *)
Definition getAllQuestions : list (Catalogue.Question Num Any) := questions.

(** [questions.filter((q) => q.category === name)]. *)
Definition in_category (name : string) : list (Catalogue.Question Num Any) :=
  filter (fun q => String.eqb (Catalogue.category q) name) questions.

(** [categories] (lines 749-791). *)
Definition categories : list (Catalogue.Category Num Any) :=
  [ Catalogue.mkCategory "core-javascript" "Core JavaScript" "âš¡"
      "Fundamental JavaScript concepts and features"
      (in_category "Core JavaScript");
    Catalogue.mkCategory "async-javascript" "Async JavaScript" "ðŸ”„"
      "Asynchronous programming patterns and concepts"
      (in_category "Async JavaScript");
    Catalogue.mkCategory "fancy-features" "Fancy Features" "âœ¨"
      "Modern JavaScript features and patterns"
      (in_category "Fancy Features");
    Catalogue.mkCategory "objects-arrays" "Objects and Arrays" "ðŸ“¦"
      "Working with objects and arrays in JavaScript"
      (in_category "Objects and Arrays");
    Catalogue.mkCategory "special-theory" "Special Theory" "ðŸŽ¯"
      "Advanced JavaScript concepts and theory"
      (in_category "Special Theory");
    Catalogue.mkCategory "frontend" "Frontend Development" "ðŸŽ¨"
      "Frontend-specific JavaScript concepts"
      (in_category "Frontend Development") ].

End Data.

Arguments getAllQuestions {Num Any} questions.
Arguments in_category {Num Any} questions name.
Arguments categories {Num Any} questions.

End QuestionsData.

(** ** The catalogue built from the category modules
    (src/lib/data/questions/frontend-development/optimizing-performance.ts,
    lines 239-305: the index of the questions directory) *)
Module QuestionsIndex.

Section Index.

Variables (Num Any : Type).

(** What each category module exports as [questions]; [None] when it
    exports no such name and the import reads [undefined]. *)
Variables CoreJavaScript AsyncJavaScript FancyFeatures ObjectsArrays SpecialTheory Frontend
  : option (list (Catalogue.Question Num Any)).

(** [exported || []]. *)
Definition or_nil (exported : option (list (Catalogue.Question Num Any)))
  : list (Catalogue.Question Num Any) :=
  match exported with
  | Some l => l
  | None => []
  end.

(** [questions] (lines 248-255).  Spreading [undefined] throws a
    [TypeError]: [None]. *)
Definition questions : option (list (Catalogue.Question Num Any)) :=
  match CoreJavaScript with
  | Some core =>
      Some (core ++ or_nil AsyncJavaScript ++ or_nil FancyFeatures
              ++ or_nil ObjectsArrays ++ or_nil SpecialTheory ++ or_nil Frontend)%list
  | None => None
  end.

(** [getAllQuestions()] (lines 258-260). *)
Definition getAllQuestions : option (list (Catalogue.Question Num Any)) := questions.

(** [categories] (lines 263-306), once [questions] has been built.  The
    first entry holds [CoreJavaScript.questions] as it is. *)
Definition categories (core : list (Catalogue.Question Num Any))
  : list (Catalogue.Category Num Any) :=
  [ Catalogue.mkCategory "core-javascript" "Core JavaScript" "⚡"
      "Fundamental JavaScript concepts and features"
      core;
    Catalogue.mkCategory "async-javascript" "Async JavaScript" "🔄"
      "Asynchronous programming patterns and concepts"
      (or_nil AsyncJavaScript);
    Catalogue.mkCategory "fancy-features" "Fancy Features" "✨"
      "Modern JavaScript features and patterns"
      (or_nil FancyFeatures);
    Catalogue.mkCategory "objects-arrays" "Objects and Arrays" "📦"
      "Working with objects and arrays in JavaScript"
      (or_nil ObjectsArrays);
    Catalogue.mkCategory "special-theory" "Special Theory" "🎯"
      "Advanced JavaScript concepts and theory"
      (or_nil SpecialTheory);
    Catalogue.mkCategory "frontend" "Frontend Development" "🎨"
      "Frontend-specific JavaScript concepts"
      (or_nil Frontend) ].

(** The module as a whole: both exports, or the exception that stops its
    evaluation. *)
Definition module : option (list (Catalogue.Question Num Any)
                            * list (Catalogue.Category Num Any)) :=
  match questions, CoreJavaScript with
  | Some all, Some core => Some (all, categories core)
  | _, _ => None
  end.

End Index.

Arguments or_nil {Num Any} exported.
Arguments questions {Num Any} _ _ _ _ _ _.
Arguments getAllQuestions {Num Any} _ _ _ _ _ _.
Arguments categories {Num Any} _ _ _ _ _ _.
Arguments module {Num Any} _ _ _ _ _ _.

End QuestionsIndex.

(** ** The command menu (src/components/command-menu.tsx) *)
Module CommandMenu.

(** The fields of a [KeyboardEvent] the handlers read. *)
Record KeyboardEvent : Type := mkKeyboardEvent {
  key : string;
  metaKey : bool;
  ctrlKey : bool
}.

(** The provider's [open] cell and the URLs given to [router.push]. *)
Record Menu : Type := mkMenu {
  open : bool;
  pushed : list string
}.

(** The document's [keydown] listener [down] (lines 28-33); the second
    component tells whether [e.preventDefault()] was called. *)
Definition down (e : KeyboardEvent) (m : Menu) : Menu * bool :=
  if String.eqb (key e) "k" && (metaKey e || ctrlKey e)
  then ({| open := negb (open m); pushed := pushed m |}, true)
  else (m, false).

(** [triggerCommandMenu()] (lines 57-64): dispatches a [keydown] of
    ctrl+k on the document, where the mounted provider listens. *)
Definition triggerCommandMenu (m : Menu) : Menu :=
  fst (down {| key := "k"; metaKey := false; ctrlKey := true |} m).

(** [navigateToQuestion(id)] (lines 72-75). *)
Definition navigateToQuestion (id : string) (m : Menu) : Menu :=
  {| open := false; pushed := (pushed m ++ [("/#" ++ id)%string])%list |}.

(** [setOpen(value)], which the dialog also receives as [onOpenChange]
    (line 86). *)
Definition setOpen (value : bool) (m : Menu) : Menu :=
  {| open := value; pushed := pushed m |}.

(** The dialog's [handleKeyDown] (lines 77-81). *)
Definition handleKeyDown (e : KeyboardEvent) (m : Menu) : Menu :=
  if String.eqb (key e) "Escape"
  then {| open := false; pushed := pushed m |}
  else m.

Section Groups.

Variables (Num Any : Type).

(** The callback of [allQuestions.reduce] (lines 104-110).  [None] is
    the [TypeError] of calling a [push] that is not there, which happens
    when [acc[category]] reads an inherited property. *)
Definition group_step (acc : Obj (list (Catalogue.Question Num Any)))
    (question : Catalogue.Question Num Any)
  : option (Obj (list (Catalogue.Question Num Any))) :=
  let category := Catalogue.category question in
  match own category acc with
  | Some _ => Some (update category (fun l => (l ++ [question])%list) acc)
  | None =>
      if inherited category
      then None
      else Some (update category (fun l => (l ++ [question])%list) (acc ++ [(category, [])])%list)
  end.

(** [array.reduce(callback, initial)] for a callback that may throw. *)
Fixpoint reduce {B : Type} (callback : B -> Catalogue.Question Num Any -> option B)
    (array : list (Catalogue.Question Num Any)) (acc : B) : option B :=
  match array with
  | [] => Some acc
  | question :: rest =>
      match callback acc question with
      | Some acc' => reduce callback rest acc'
      | None => None
      end
  end.

(** [Object.entries(allQuestions.reduce(..., {}))] (lines 103-112). *)
Definition grouped (allQuestions : list (Catalogue.Question Num Any))
  : option (list (string * list (Catalogue.Question Num Any))) :=
  option_map Object_entries (reduce group_step allQuestions []).

(** A [Command.Item] (lines 115-125): its search value and the id its
    [onSelect] navigates to. *)
Record Item : Type := mkItem {
  value : string;
  item_number : Num;
  item_title : string;
  onSelect : string
}.

Definition item (question : Catalogue.Question Num Any) : Item :=
  {| value := Catalogue.title question ++ " " ++ Catalogue.id question;
     item_number := Catalogue.number question;
     item_title := Catalogue.title question;
     onSelect := Catalogue.id question |}.

(** The [Command.Group]s of the list: heading and items. *)
Definition groups (allQuestions : list (Catalogue.Question Num Any))
  : option (list (string * list Item)) :=
  option_map (map (fun entry => (fst entry, map item (snd entry)))) (grouped allQuestions).

End Groups.

Arguments group_step {Num Any} acc question.
Arguments reduce {Num Any B} callback array acc.
Arguments grouped {Num Any} allQuestions.
Arguments mkItem {Num} _ _ _ _.
Arguments value {Num} _.
Arguments item_number {Num} _.
Arguments item_title {Num} _.
Arguments onSelect {Num} _.
Arguments item {Num Any} question.
Arguments groups {Num Any} allQuestions.

End CommandMenu.

(** ** The floating navigation (src/unnamed/part_000) *)
Module FloatingNav.

(** An [IntersectionObserverEntry]: [isIntersecting] and [target.id]. *)
Record Entry : Type := mkEntry {
  isIntersecting : bool;
  target_id : string
}.

(** The observer's callback (lines 40-46), from the current
    [activeSection] to the one left by the [setActiveSection] calls. *)
Definition observed (entries : list Entry) (activeSection : string) : string :=
  fold_left (fun active entry => if isIntersecting entry then target_id entry else active)
    entries activeSection.

(** The title shown in a link (lines 87-89). *)
Definition link_title (title : string) : string :=
  if (30 <? String.length title)%nat
  then js_substring 0 30 title ++ "..."
  else title.

Section Questions.

Variables (Num Any : Type).

(** [a === b] on numbers, and the text of a number in a template. *)
Variable strict_equal : Num -> Num -> bool.
Variable Num_toString : Num -> string.

(** The imported [questions]. *)
Variable questions : list (Catalogue.Question Num Any).

(** [getQuestionIdByNumber(num)] (lines 20-23). *)
Definition getQuestionIdByNumber (num : Num) : string :=
  match find (fun q => strict_equal (Catalogue.number q) num) questions with
  | Some question => Catalogue.id question
  | None => "q" ++ Num_toString num
  end.

(** A link of the navigation (lines 76-90): its [href], whether it
    carries the active style, and its text. *)
Definition link (activeSection : string) (question : Catalogue.Question Num Any)
  : string * bool * string :=
  ("#" ++ Catalogue.id question,
   String.eqb activeSection (Catalogue.id question),
   Num_toString (Catalogue.number question) ++ "." ++ " "
     ++ link_title (Catalogue.title question)).

End Questions.

Arguments getQuestionIdByNumber {Num Any} strict_equal Num_toString questions num.
Arguments link {Num Any} Num_toString activeSection question.

End FloatingNav.

(** ** The sidebar (src/components/sidebar.tsx, lines 31-100) *)
Module Sidebar.

Record State : Type := mkState {
  isOpen : bool;        (* useState(true) *)
  activeId : string     (* useState("") *)
}.

Definition initial : State := {| isOpen := true; activeId := "" |}.

(** The [hashchange] listener (lines 38-40), given [window.location.hash]. *)
Definition hashchange (location_hash : string) (s : State) : State :=
  {| isOpen := isOpen s; activeId := js_replace "#" "" location_hash |}.

(** The menu button (line 47). *)
Definition toggle (s : State) : State :=
  {| isOpen := negb (isOpen s); activeId := activeId s |}.

(** A link's [onClick] (line 85). *)
Definition link_onClick (question_id : string) (s : State) : State :=
  {| isOpen := isOpen s; activeId := question_id |}.

(** Whether the link of a question carries the active style (line 82). *)
Definition is_active (s : State) (question_id : string) : bool :=
  String.eqb (activeId s) question_id.

End Sidebar.

(** ** The concept card (src/components/concept-card.tsx) *)
Module ConceptCard.

Section Card.

Variables (Num Any : Type).

(** What [renderVisualization] returns when it is not [null]. *)
Inductive Diagram : Type :=
| FlowDiagram (nodes : list (Catalogue.Node Num)) (edges : list Catalogue.Edge)
| MermaidDiagram (chart : string)
| Timeline (events : list Any).

(** [renderVisualization()] (lines 35-56).  An array is truthy even when
    it is empty; a string is truthy when it is not empty. *)
Definition renderVisualization (visualization : option (Catalogue.Visualization Num Any))
  : option Diagram :=
  match visualization with
  | None => None
  | Some v =>
      match Catalogue.type v with
      | Catalogue.flow =>
          match Catalogue.nodes v, Catalogue.edges v with
          | Some nodes, Some edges => Some (FlowDiagram nodes edges)
          | _, _ => None
          end
      | Catalogue.mermaid =>
          match Catalogue.chart v with
          | Some chart => if truthy chart then Some (MermaidDiagram chart) else None
          | None => None
          end
      | Catalogue.timeline =>
          match Catalogue.events v with
          | Some events => Some (Timeline events)
          | None => None
          end
      end
  end.

(** What a card shows (lines 58-154): the section's id, the wrapper of
    the visualization with what it holds, the playground's initial code,
    and the three lists when the card is expanded. *)
Record View : Type := mkView {
  section_id : string;
  wrapper : option (option Diagram);
  initialCode : string;
  details : option (list string * list string * list string)
}.

Definition render (question : Catalogue.Question Num Any) (isExpanded : bool) : View :=
  {| section_id := Catalogue.id question;
     wrapper :=
       match Catalogue.visualization question with
       | Some v => Some (renderVisualization (Some v))
       | None => None
       end;
     initialCode := Catalogue.example question;
     details :=
       if isExpanded
       then Some (Catalogue.bestPractices question,
                  Catalogue.commonMistakes question,
                  Catalogue.tips question)
       else None |}.

End Card.

Arguments FlowDiagram {Num Any} nodes edges.
Arguments MermaidDiagram {Num Any} chart.
Arguments Timeline {Num Any} events.
Arguments renderVisualization {Num Any} visualization.
Arguments render {Num Any} question isExpanded.
Arguments section_id {Num Any} _.
Arguments wrapper {Num Any} _.
Arguments initialCode {Num Any} _.
Arguments details {Num Any} _.

End ConceptCard.

(** ** A sample catalogue

    Questions with integer numbers, for running the navigation on
    concrete lists. *)
Module SampleCatalogue.

Definition question (id category : string) (number : Z) (title : string)
  : Catalogue.Question Z unit :=
  Catalogue.mkQuestion id category number title "" "return 2 + 2;" [] [] [] None.

Definition questions : list (Catalogue.Question Z unit) :=
  [ question "var-let-const" "Core JavaScript" 1
      "What is the difference between var, let, and const in JavaScript?";
    question "promises-then" "Async JavaScript" 12
      "How do JavaScript promises work, and what is the then() method?";
    question "hoisting" "Core JavaScript" 2 "What is hoisting?" ].

(** The same questions under numeric category names. *)
Definition numbered : list (Catalogue.Question Z unit) :=
  [ question "var-let-const" "10" 1 "What is hoisting?";
    question "promises-then" "Core JavaScript" 12 "What is hoisting?";
    question "hoisting" "2" 2 "What is hoisting?" ].

End SampleCatalogue.

(** ** Notions the properties are stated with *)

(** The distinct elements of a list, each at its first occurrence. *)
Fixpoint first_occurrences (l : list string) : list string :=
  match l with
  | [] => []
  | x :: rest => x :: filter (fun y => negb (String.eqb y x)) (first_occurrences rest)
  end.

(** One group per distinct category, in the order of first appearance,
    each holding the questions of that category in their order. *)
Definition by_category {Num Any : Type} (l : list (Catalogue.Question Num Any))
  : Obj (list (Catalogue.Question Num Any)) :=
  map (fun c => (c, filter (fun q => String.eqb (Catalogue.category q) c) l))
    (first_occurrences (map Catalogue.category l)).

(** One call of a handler that writes the menu's [open] cell: the
    document's [keydown] listener, the Quick Navigation button of the
    layout shell (which calls [triggerCommandMenu]), the dialog's
    [onKeyDown], the dialog's [onOpenChange] and the selection of an
    item. *)
Inductive MenuEvent : Type :=
| DocumentKeyDown (e : CommandMenu.KeyboardEvent)
| QuickNavigation
| DialogKeyDown (e : CommandMenu.KeyboardEvent)
| OpenChange (value : bool)
| ItemSelected (id : string).

Definition menu_step (ev : MenuEvent) (m : CommandMenu.Menu) : CommandMenu.Menu :=
  match ev with
  | DocumentKeyDown e => fst (CommandMenu.down e m)
  | QuickNavigation => CommandMenu.triggerCommandMenu m
  | DialogKeyDown e => CommandMenu.handleKeyDown e m
  | OpenChange value => CommandMenu.setOpen value m
  | ItemSelected id => CommandMenu.navigateToQuestion id m
  end.

(** The menu after a series of handler calls. *)
Definition menu_run (events : list MenuEvent) (m : CommandMenu.Menu) : CommandMenu.Menu :=
  fold_left (fun m ev => menu_step ev m) events m.

(** The calls that reach the document's listener. *)
Definition on_document (ev : MenuEvent) : bool :=
  match ev with
  | DocumentKeyDown _ | QuickNavigation => true
  | _ => false
  end.

(** The calls that flip the menu: the button, and the lower-case [k]
    pressed with the control or the meta key. *)
Definition flips (ev : MenuEvent) : bool :=
  match ev with
  | DocumentKeyDown e =>
      String.eqb (CommandMenu.key e) "k"
      && (CommandMenu.metaKey e || CommandMenu.ctrlKey e)
  | QuickNavigation => true
  | _ => false
  end.

(** Unfolds a run of [runCode] down to the host calls it makes. *)
Ltac run_unfold :=
  unfold runCode, runCode_closure, try_catch, runCode_try, runCode_catch,
    bind, on_host, setOutput, toast; simpl.

(** * Properties *)

(** ** Text lemmas *)

Lemma starts_with_app (a b : string) : starts_with a (a ++ b) = true.
Proof.
  unfold starts_with.
  induction a as [|c a IH]; simpl.
  - now destruct b.
  - destruct (ascii_dec c c) as [_|ne]; [exact IH | now elim ne].
Qed.

Lemma starts_with_refl (a : string) : starts_with a a = true.
Proof.
  unfold starts_with.
  induction a as [|c a IH]; simpl; [reflexivity|].
  destruct (ascii_dec c c) as [_|ne]; [exact IH | now elim ne].
Qed.

Lemma includes_refl (m : string) : includes m m = true.
Proof.
  destruct m; cbn [includes]; rewrite starts_with_refl; reflexivity.
Qed.

Lemma includes_app_r (a m : string) : includes m (a ++ m) = true.
Proof.
  induction a as [|c a IH].
  - apply includes_refl.
  - change (String c a ++ m) with (String c (a ++ m)).
    cbn [includes]. rewrite IH. apply orb_true_r.
Qed.

Lemma append_assoc (a b c : string) : (a ++ b) ++ c = a ++ (b ++ c).
Proof.
  induction a as [|x a IH]; simpl; [reflexivity | now rewrite IH].
Qed.

Lemma truthy_nonempty (s : string) : s <> "" -> truthy s = true.
Proof.
  destruct s; [intros ne; now elim ne | reflexivity].
Qed.

Lemma Error_toString_both (name message : string) :
  name <> "" -> message <> "" ->
  Error_prototype_toString name message = name ++ ": " ++ message.
Proof.
  intros Hn Hm. unfold Error_prototype_toString.
  now rewrite (truthy_nonempty _ Hn), (truthy_nonempty _ Hm).
Qed.

Lemma output_panel_blank {R : Realm} (p : Page R) :
  output_panel p = None <-> output p = "".
Proof.
  unfold output_panel. destruct (output p); simpl; split; congruence.
Qed.

(** ** What [runCode] does, by the way its source runs *)

Section RunCode.

Context {R : Realm}.
Variable new_Function_call : string -> HostOp R (JsValue R).

(** The code returns [v] and [String(v)] is [s]. *)
Lemma runCode_returns (p : Page R) v h1 s h2 :
  new_Function_call (code p) (host p) = Normal (v, h1) ->
  js_String v h1 = Normal (s, h2) ->
  runCode new_Function_call p = Normal (tt, mkPage (code p) s
                        (toasts p ++ [toast_success "Code executed successfully!"]) h2).
Proof.
  intros Hcall Hstr. run_unfold. rewrite Hcall. simpl. rewrite Hstr. reflexivity.
Qed.

(** The code throws [e] and [String(e)] is [s]. *)
Lemma runCode_throws (p : Page R) e h1 s h2 :
  new_Function_call (code p) (host p) = Throw (e, h1) ->
  js_String e h1 = Normal (s, h2) ->
  runCode new_Function_call p = Normal (tt, mkPage (code p) s
                        (toasts p ++ [toast_error "Error executing code"]) h2).
Proof.
  intros Hcall Hstr. run_unfold. rewrite Hcall. simpl. rewrite Hstr. reflexivity.
Qed.

(** The code does not complete. *)
Lemma runCode_hangs (p : Page R) :
  new_Function_call (code p) (host p) = Diverge -> runCode new_Function_call p = Diverge.
Proof.
  intros Hcall. run_unfold. now rewrite Hcall.
Qed.

(** The [try] block never changes [code], and when it throws it has
    touched neither [output] nor the notifications. *)
Lemma runCode_try_throw (src : string) (p p1 : Page R) error :
  runCode_try new_Function_call src p = Throw (error, p1) ->
  code p1 = code p /\ output p1 = output p /\ toasts p1 = toasts p.
Proof.
  unfold runCode_try, bind, on_host, setOutput, toast.
  destruct (new_Function_call src (host p)) as [[v h1]|[e h1]|]; simpl.
  - destruct (js_String v h1) as [[s h2]|[e h2]|]; simpl; try discriminate.
    intros [= _ <-]. now simpl.
  - intros [= _ <-]. now simpl.
  - discriminate.
Qed.

(** The only exceptions that leave [runCode] are those of the [catch]
    block's own [String(error)]. *)
Lemma runCode_escapes (p : Page R) error p1 e h2 :
  runCode_try new_Function_call (code p) p = Throw (error, p1) ->
  js_String error (host p1) = Throw (e, h2) ->
  runCode new_Function_call p = Throw (e, mkPage (code p) (output p) (toasts p) h2).
Proof.
  intros Htry Hstr.
  destruct (runCode_try_throw _ _ _ _ Htry) as (Hc & Ho & Ht).
  unfold runCode, runCode_closure, try_catch. rewrite Htry.
  unfold runCode_catch, bind, on_host. rewrite Hstr, Hc, Ho, Ht. reflexivity.
Qed.

(** Every way [runCode] returns. *)
Lemma runCode_returned (p p' : Page R) u :
  runCode new_Function_call p = Normal (u, p') ->
  code p' = code p /\
  ((exists v h1,
       new_Function_call (code p) (host p) = Normal (v, h1) /\
       js_String v h1 = Normal (output p', host p') /\
       toasts p' = (toasts p ++ [toast_success "Code executed successfully!"])%list)
   \/
   (exists error p1,
       runCode_try new_Function_call (code p) p = Throw (error, p1) /\
       js_String error (host p1) = Normal (output p', host p') /\
       toasts p' = (toasts p ++ [toast_error "Error executing code"])%list)).
Proof.
  unfold runCode, runCode_closure, try_catch.
  destruct (runCode_try new_Function_call (code p) p) as [[u0 p0]|[error p1]|] eqn:Htry.
  - intros [= _ <-]. revert Htry.
    unfold runCode_try, bind, on_host, setOutput, toast.
    destruct (new_Function_call (code p) (host p)) as [[v h1]|[e h1]|]; simpl; try discriminate.
    destruct (js_String v h1) as [[s h2]|[e h2]|] eqn:Hstr; simpl; try discriminate.
    intros [= _ <-]. simpl. split; [reflexivity|]. left. exists v, h1. now rewrite Hstr.
  - destruct (runCode_try_throw _ _ _ _ Htry) as (Hc & Ho & Ht).
    unfold runCode_catch, bind, on_host, setOutput, toast.
    destruct (js_String error (host p1)) as [[s h2]|[e h2]|] eqn:Hstr; simpl; try discriminate.
    intros [= _ <-]. simpl. split; [exact Hc|]. right. exists error, p1.
    rewrite Hstr, Ht. auto.
  - discriminate.
Qed.

(** Every way an exception leaves [runCode]. *)
Lemma runCode_thrown (p p' : Page R) e :
  runCode new_Function_call p = Throw (e, p') ->
  (exists error p1,
      runCode_try new_Function_call (code p) p = Throw (error, p1) /\
      js_String error (host p1) = Throw (e, host p')) /\
  code p' = code p /\ output p' = output p /\ toasts p' = toasts p.
Proof.
  unfold runCode, runCode_closure, try_catch.
  destruct (runCode_try new_Function_call (code p) p) as [[u0 p0]|[error p1]|] eqn:Htry;
    try discriminate.
  destruct (runCode_try_throw _ _ _ _ Htry) as (Hc & Ho & Ht).
  unfold runCode_catch, bind, on_host, setOutput, toast.
  destruct (js_String error (host p1)) as [[s h2]|[e2 h2]|] eqn:Hstr; simpl; try discriminate.
  intros [= <- <-]. simpl. split; [|auto].
  exists error, p1. now rewrite Hstr.
Qed.

End RunCode.

(** [copyCode] on the sample host, whose clipboard rejects the write. *)
Example copyCode_after_rejected_write :
  copyCode (Some SampleHost.clipboard_writeText) (SampleHost.mount "return 2 + 2;")
  = Normal (tt, mkPage "return 2 + 2;" ""
                  [toast_success "Code copied to clipboard!"] SampleHost.fresh).
Proof. reflexivity. Qed.

(** ** The claims *)

(** C1 (counterexample).  On the sample host the source [while(true){}]
    makes [runCode] itself hang: no [TimedOut] outcome is ever reported. *)
Lemma C1_infinite_loop_hangs_runCode :
  runCode SampleHost.new_Function_call (SampleHost.mount "while(true){}") = Diverge.
Proof. reflexivity. Qed.

(** C1 (as amended).  [runCode] enforces no timeout budget: for every
    source text whose execution never completes, invoking [runCode] never
    returns; it reports no outcome, and the display and the notifications
    are never updated. *)
Theorem C1_runCode_has_no_timeout {R : Realm}
    (new_Function_call : string -> HostOp R (JsValue R)) (p : Page R) :
  new_Function_call (code p) (host p) = Diverge ->
  runCode new_Function_call p = Diverge.
Proof.
  apply runCode_hangs.
Qed.

(** C1 at the sample host: the infinite loop. *)
Lemma C1_runCode_has_no_timeout_witness :
  SampleHost.new_Function_call "while(true){}" SampleHost.fresh = Diverge /\
  runCode SampleHost.new_Function_call (SampleHost.mount "while(true){}") = Diverge.
Proof.
  split; [reflexivity|].
  apply (C1_runCode_has_no_timeout SampleHost.new_Function_call
           (SampleHost.mount "while(true){}")).
  reflexivity.
Defined.

(** C2 (the failing input).  The source [throw Object.create(null);]
    throws an object that has no string conversion.  The [catch] block
    evaluates [String(error)], which throws a [TypeError] of its own, and
    that exception leaves [runCode]: the output and the notifications are
    untouched. *)
Theorem C2_exception_escapes_runCode :
  runCode SampleHost.new_Function_call (SampleHost.mount "throw Object.create(null);")
  = Throw (JError "TypeError" "Cannot convert object to primitive value",
           SampleHost.mount "throw Object.create(null);").
Proof. reflexivity. Qed.

(** C3 (counterexample).  The empty source is compiled and called like
    any other: the display becomes [undefined] and the success
    notification fires. *)
Lemma C3_empty_source_is_executed :
  runCode SampleHost.new_Function_call (SampleHost.mount "")
  = Normal (tt, mkPage "" "undefined"
                  [toast_success "Code executed successfully!"] SampleHost.fresh).
Proof. reflexivity. Qed.

(** C3 (as amended).  [runCode] does not require a non-empty source:
    the empty source text is executed like any other, and since an empty
    function body returns [undefined], the display becomes ["undefined"]
    and the success notification fires. *)
Theorem C3_empty_source_displays_undefined {R : Realm}
    (new_Function_call : string -> HostOp R (JsValue R)) (p : Page R) (h1 : Host R) :
  code p = "" ->
  new_Function_call "" (host p) = Normal (JUndefined, h1) ->
  runCode new_Function_call p
  = Normal (tt, mkPage "" "undefined"
                  (toasts p ++ [toast_success "Code executed successfully!"]) h1).
Proof.
  intros Hempty Hcall.
  rewrite <- Hempty in Hcall.
  rewrite (runCode_returns new_Function_call p JUndefined h1 "undefined" h1 Hcall eq_refl).
  now rewrite Hempty.
Qed.

(** C3 at the sample host: a fresh playground holding the empty text. *)
Lemma C3_empty_source_displays_undefined_witness :
  runCode SampleHost.new_Function_call (SampleHost.mount "")
  = Normal (tt, mkPage "" "undefined"
                  ([] ++ [toast_success "Code executed successfully!"]) SampleHost.fresh).
Proof.
  apply (C3_empty_source_displays_undefined SampleHost.new_Function_call
           (SampleHost.mount "") SampleHost.fresh); reflexivity.
Defined.

(** C4 (counterexample).  [throw new Error('bad');] displays
    ["Error: bad"], which does not start with [RuntimeError]. *)
Lemma C4_thrown_Error_is_not_labelled_RuntimeError :
  runCode SampleHost.new_Function_call (SampleHost.mount "throw new Error('bad');")
  = Normal (tt, mkPage "throw new Error('bad');" "Error: bad"
                  [toast_error "Error executing code"] SampleHost.fresh)
  /\ starts_with "RuntimeError" "Error: bad" = false.
Proof. split; reflexivity. Qed.

(** C4 (as amended).  For every source text whose execution throws a
    value [e], the display text is [String(e)].  When [e] is an Error
    object with a non-empty name and a non-empty message, that text is
    ["{name}: {message}"]: it starts with the error's own name (such as
    [Error], [TypeError] or [SyntaxError]; there is no [RuntimeError] or
    [Timeout] label) and contains the message.  In particular
    [throw new Error('bad');] displays ["Error: bad"]. *)
Theorem C4_thrown_value_is_displayed_by_String {R : Realm}
    (new_Function_call : string -> HostOp R (JsValue R))
    (p : Page R) (e : JsValue R) (h1 : Host R) :
  new_Function_call (code p) (host p) = Throw (e, h1) ->
  (forall s h2,
      js_String e h1 = Normal (s, h2) ->
      runCode new_Function_call p
      = Normal (tt, mkPage (code p) s (toasts p ++ [toast_error "Error executing code"]) h2))
  /\
  (forall name message,
      e = JError name message -> name <> "" -> message <> "" ->
      exists p',
        runCode new_Function_call p = Normal (tt, p') /\
        output p' = name ++ ": " ++ message /\
        starts_with name (output p') = true /\
        includes message (output p') = true).
Proof.
  intros Hcall. split.
  - intros s h2 Hstr. exact (runCode_throws new_Function_call p e h1 s h2 Hcall Hstr).
  - intros name message -> Hn Hm.
    eexists. split.
    + exact (runCode_throws new_Function_call p _ h1
               (Error_prototype_toString name message) h1 Hcall eq_refl).
    + cbn [output]. rewrite (Error_toString_both name message Hn Hm).
      split; [reflexivity|]. split.
      * apply starts_with_app.
      * rewrite <- append_assoc. apply includes_app_r.
Qed.

(** C4 at the sample host: [throw new Error('bad');] displays [Error: bad]. *)
Lemma C4_thrown_value_is_displayed_by_String_witness :
  exists p',
    runCode SampleHost.new_Function_call (SampleHost.mount "throw new Error('bad');")
    = Normal (tt, p') /\
    output p' = "Error" ++ ": " ++ "bad" /\
    starts_with "Error" (output p') = true /\
    includes "bad" (output p') = true.
Proof.
  refine (proj2 (C4_thrown_value_is_displayed_by_String SampleHost.new_Function_call
                   (SampleHost.mount "throw new Error('bad');")
                   (JError "Error" "bad") SampleHost.fresh _)
            "Error" "bad" _ _ _); [reflexivity | reflexivity | discriminate | discriminate].
Defined.

(** C5 (counterexample).  The source
    [globalThis.leaked = 1; console.log('hi');] leaves a new property on
    the host's global object and a line on the host's real console; the
    display holds only [String(undefined)], nothing was captured. *)
Lemma C5_effects_reach_the_host :
  runCode SampleHost.new_Function_call
    (SampleHost.mount "globalThis.leaked = 1; console.log('hi');")
  = Normal (tt, mkPage "globalThis.leaked = 1; console.log('hi');" "undefined"
                  [toast_success "Code executed successfully!"]
                  (SampleHost.globals ["hi"] [("leaked", 1%Z)])).
Proof. reflexivity. Qed.

(** C5 (as amended).  The executed code has no access to the controller's
    internal state: what a run does depends only on the source text and
    on the host's global state, whatever the current output and
    notifications are.  But the code runs directly against the host's
    ambient global state: the host state after the run is the one the
    executed code (and the conversion of its result) left behind,
    console calls included; nothing is captured, and the display holds
    only [String(result)]. *)
Theorem C5_run_acts_on_the_ambient_host {R : Realm}
    (new_Function_call : string -> HostOp R (JsValue R)) (source : string) (h : Host R) :
  (forall (shown shown' : string) (notified notified' : list Toast),
      outcome (runCode new_Function_call (mkPage source shown notified h))
      = outcome (runCode new_Function_call (mkPage source shown' notified' h)))
  /\
  (forall (v : JsValue R) (h1 : Host R) (s : string) (h2 : Host R),
      new_Function_call source h = Normal (v, h1) ->
      js_String v h1 = Normal (s, h2) ->
      forall (shown : string) (notified : list Toast),
        runCode new_Function_call (mkPage source shown notified h)
        = Normal (tt, mkPage source s
                        (notified ++ [toast_success "Code executed successfully!"]) h2)).
Proof.
  split.
  - intros shown shown' notified notified'. run_unfold.
    destruct (new_Function_call source h) as [[v h1]|[e h1]|]; simpl; [| |reflexivity].
    + destruct (js_String v h1) as [[s h2]|[e h2]|]; simpl; [reflexivity| |reflexivity].
      destruct (js_String e h2) as [[s h3]|[e3 h3]|]; reflexivity.
    + destruct (js_String e h1) as [[s h2]|[e2 h2]|]; reflexivity.
  - intros v h1 s h2 Hcall Hstr shown notified.
    exact (runCode_returns new_Function_call (mkPage source shown notified h)
             v h1 s h2 Hcall Hstr).
Qed.

(** C5 at the sample host, on a page that already shows an earlier result. *)
Lemma C5_run_acts_on_the_ambient_host_witness :
  runCode SampleHost.new_Function_call
    (mkPage "globalThis.leaked = 1; console.log('hi');" "4"
       [toast_success "Code executed successfully!"] SampleHost.fresh)
  = Normal (tt, mkPage "globalThis.leaked = 1; console.log('hi');" "undefined"
                  ([toast_success "Code executed successfully!"]
                   ++ [toast_success "Code executed successfully!"])
                  (SampleHost.globals ["hi"] [("leaked", 1%Z)])).
Proof.
  apply (proj2 (C5_run_acts_on_the_ambient_host SampleHost.new_Function_call
                  "globalThis.leaked = 1; console.log('hi');" SampleHost.fresh)
           JUndefined (SampleHost.globals ["hi"] [("leaked", 1%Z)])
           "undefined" (SampleHost.globals ["hi"] [("leaked", 1%Z)]));
    reflexivity.
Defined.




(** C8 (counterexample).  [return '';] completes with the empty text as
    its outcome, and the render function then shows no output panel: the
    display is blank after a completed run. *)
Lemma C8_empty_text_leaves_display_blank :
  runCode SampleHost.new_Function_call (SampleHost.mount "return '';")
  = Normal (tt, mkPage "return '';" ""
                  [toast_success "Code executed successfully!"] SampleHost.fresh)
  /\
  output_panel (mkPage "return '';" ""
                  [toast_success "Code executed successfully!"] SampleHost.fresh)
  = None.
Proof. split; reflexivity. Qed.

(** C8 (as amended).  Every run from which [runCode] returns produces
    exactly one outcome: one notification is added, and the output holds
    one text, which is either [String(result)] with the success
    notification or [String(error)] with the error notification, never
    both.  The output panel is rendered exactly when that text is not
    empty, so a run whose text is empty leaves the display blank. *)
Theorem C8_returned_run_has_one_outcome {R : Realm}
    (new_Function_call : string -> HostOp R (JsValue R)) (p p' : Page R) :
  runCode new_Function_call p = Normal (tt, p') ->
  (exists t,
      toasts p' = (toasts p ++ [t])%list /\
      ((t = toast_success "Code executed successfully!" /\
        exists v h1,
          new_Function_call (code p) (host p) = Normal (v, h1) /\
          js_String v h1 = Normal (output p', host p'))
       \/
       (t = toast_error "Error executing code" /\
        exists error p1,
          runCode_try new_Function_call (code p) p = Throw (error, p1) /\
          js_String error (host p1) = Normal (output p', host p'))))
  /\ (output_panel p' = None <-> output p' = "")
  /\ (output p' <> "" -> output_panel p' = Some (output p')).
Proof.
  intros Hrun.
  destruct (runCode_returned new_Function_call p p' tt Hrun) as [_ Hcases].
  split; [|split].
  - destruct Hcases as [(v & h1 & Hcall & Hstr & Ht) | (error & p1 & Htry & Hstr & Ht)].
    + eexists. split; [exact Ht|]. left. split; [reflexivity|]. now exists v, h1.
    + eexists. split; [exact Ht|]. right. split; [reflexivity|]. now exists error, p1.
  - apply output_panel_blank.
  - intros Hne. unfold output_panel. now rewrite (truthy_nonempty _ Hne).
Qed.

(** C8 at the sample host: the run of [return 2 + 2;]. *)
Lemma C8_returned_run_has_one_outcome_witness :
  (exists t,
      toasts (mkPage "return 2 + 2;" "4"
                [toast_success "Code executed successfully!"] SampleHost.fresh)
      = (toasts (SampleHost.mount "return 2 + 2;") ++ [t])%list /\
      ((t = toast_success "Code executed successfully!" /\
        exists v h1,
          SampleHost.new_Function_call (code (SampleHost.mount "return 2 + 2;"))
            (host (SampleHost.mount "return 2 + 2;")) = Normal (v, h1) /\
          js_String v h1 = Normal ("4", SampleHost.fresh))
       \/
       (t = toast_error "Error executing code" /\
        exists error p1,
          runCode_try SampleHost.new_Function_call
            (code (SampleHost.mount "return 2 + 2;")) (SampleHost.mount "return 2 + 2;")
          = Throw (error, p1) /\
          js_String error (host p1) = Normal ("4", SampleHost.fresh))))
  /\ (output_panel (mkPage "return 2 + 2;" "4"
                      [toast_success "Code executed successfully!"] SampleHost.fresh)
      = None <-> "4" = "")
  /\ ("4" <> "" ->
      output_panel (mkPage "return 2 + 2;" "4"
                      [toast_success "Code executed successfully!"] SampleHost.fresh)
      = Some "4").
Proof.
  exact (C8_returned_run_has_one_outcome SampleHost.new_Function_call
           (SampleHost.mount "return 2 + 2;")
           (mkPage "return 2 + 2;" "4"
              [toast_success "Code executed successfully!"] SampleHost.fresh)
           eq_refl).
Defined.

Lemma or_empty_Some (x : string) : or_empty (Some x) = x.
Proof.
  now destruct x.
Qed.

(** C9.  For every text [x], the editor's [onChange(x)] makes the source
    buffer equal to [x] and changes nothing else.  A [runCode] invoked
    then executes exactly [x]: its outcome is the one that evaluating
    [x] on the host gives (the text of its result with the success
    notification, the text of its exception with the error
    notification, the exception of a failed conversion of the caught
    value, or no return), and it consults the host's evaluator on no
    other text.  An [onChange] issued after that run replaces the buffer
    only; the output, the notifications and the host state the run
    produced stay as they are. *)
Theorem C9_edit_then_run_executes_the_buffer {R : Realm}
    (new_Function_call : string -> HostOp R (JsValue R))
    (x : string) (p : Page R) :
  onChange (Some x) p = Normal (tt, mkPage x (output p) (toasts p) (host p))
  /\
  runCode new_Function_call (mkPage x (output p) (toasts p) (host p))
  = (let caught (error : JsValue R) (h : Host R) :=
       match js_String error h with
       | Normal (s, h') =>
           Normal (tt, mkPage x s (toasts p ++ [toast_error "Error executing code"]) h')
       | Throw (e, h') => Throw (e, mkPage x (output p) (toasts p) h')
       | Diverge => Diverge
       end in
     match new_Function_call x (host p) with
     | Normal (result, h1) =>
         match js_String result h1 with
         | Normal (s, h2) =>
             Normal (tt, mkPage x s
                           (toasts p ++ [toast_success "Code executed successfully!"]) h2)
         | Throw (error, h2) => caught error h2
         | Diverge => Diverge
         end
     | Throw (error, h1) => caught error h1
     | Diverge => Diverge
     end)
  /\
  (forall other : string -> HostOp R (JsValue R),
      other x (host p) = new_Function_call x (host p) ->
      runCode other (mkPage x (output p) (toasts p) (host p))
      = runCode new_Function_call (mkPage x (output p) (toasts p) (host p)))
  /\
  (forall y : option string,
      bind (runCode new_Function_call) (fun _ => onChange y)
        (mkPage x (output p) (toasts p) (host p))
      = match runCode new_Function_call (mkPage x (output p) (toasts p) (host p)) with
        | Normal (_, q) => Normal (tt, mkPage (or_empty y) (output q) (toasts q) (host q))
        | Throw e => Throw e
        | Diverge => Diverge
        end).
Proof.
  split; [|split; [|split]].
  - unfold onChange, setCode. now rewrite or_empty_Some.
  - cbv zeta. run_unfold.
    destruct (new_Function_call x (host p)) as [[v h1]|[e h1]|]; simpl; [| |reflexivity].
    + destruct (js_String v h1) as [[s h2]|[e h2]|]; simpl; [reflexivity| |reflexivity].
      destruct (js_String e h2) as [[s h3]|[e3 h3]|]; reflexivity.
    + destruct (js_String e h1) as [[s h2]|[e2 h2]|]; reflexivity.
  - intros other Hsame.
    unfold runCode, runCode_closure, try_catch, runCode_try, bind, on_host.
    cbn [code host]. now rewrite Hsame.
  - intros y. unfold bind.
    destruct (runCode new_Function_call (mkPage x (output p) (toasts p) (host p)))
      as [[u q]|e|]; reflexivity.
Qed.

(** C9 at the sample host: edit to [return 2 + 2;], run, then edit again. *)
Lemma C9_edit_then_run_executes_the_buffer_witness :
  onChange (Some "return 2 + 2;") (SampleHost.mount "while(true){}")
  = Normal (tt, SampleHost.mount "return 2 + 2;")
  /\
  runCode SampleHost.new_Function_call (SampleHost.mount "return 2 + 2;")
  = Normal (tt, mkPage "return 2 + 2;" "4"
                  ([] ++ [toast_success "Code executed successfully!"]) SampleHost.fresh)
  /\
  bind (runCode SampleHost.new_Function_call) (fun _ => onChange (Some "while(true){}"))
    (SampleHost.mount "return 2 + 2;")
  = Normal (tt, mkPage "while(true){}" "4"
                  [toast_success "Code executed successfully!"] SampleHost.fresh).
Proof.
  pose proof (C9_edit_then_run_executes_the_buffer SampleHost.new_Function_call
                "return 2 + 2;" (SampleHost.mount "while(true){}"))
    as (Hedit & Hrun & _ & Hlater).
  split; [exact Hedit|]. split.
  - exact Hrun.
  - exact (Hlater (Some "while(true){}")).
Defined.



(** ** Further properties of the handlers *)

(** X1.  [runCode] never writes the source buffer: when it returns, and
    also when an exception leaves it, [code] is what it was; in the
    second case the output and the notifications are untouched too. *)
Theorem X1_runCode_keeps_the_buffer {R : Realm}
    (new_Function_call : string -> HostOp R (JsValue R)) (p : Page R) :
  match runCode new_Function_call p with
  | Normal (_, p') => code p' = code p
  | Throw (_, p') => code p' = code p /\ output p' = output p /\ toasts p' = toasts p
  | Diverge => True
  end.
Proof.
  destruct (runCode new_Function_call p) as [[u p']|[e p']|] eqn:Hrun.
  - exact (proj1 (runCode_returned new_Function_call p p' u Hrun)).
  - exact (proj2 (runCode_thrown new_Function_call p p' e Hrun)).
  - exact I.
Qed.

(** * Properties of the catalogue and the navigation *)

(** ** Lists of keys *)

Lemma existsb_eqb_In (x : string) (l : list string) :
  existsb (String.eqb x) l = true <-> In x l.
Proof.
  rewrite existsb_exists. split.
  - intros (y & Hy & Heq). apply String.eqb_eq in Heq. now subst.
  - intros Hin. exists x. split; [exact Hin | apply String.eqb_refl].
Qed.

Lemma first_occurrences_In (x : string) (l : list string) :
  In x (first_occurrences l) <-> In x l.
Proof.
  induction l as [|y l IH]; simpl; [tauto|].
  rewrite filter_In, IH. split.
  - intros [->|[Hin _]]; auto.
  - intros [->|Hin]; [now left|].
    destruct (String.eqb x y) eqn:E.
    + apply String.eqb_eq in E. now left.
    + right. split; [exact Hin | reflexivity].
Qed.

Lemma first_occurrences_NoDup (l : list string) : NoDup (first_occurrences l).
Proof.
  induction l as [|y l IH]; simpl; constructor.
  - rewrite filter_In. intros [_ H]. now rewrite String.eqb_refl in H.
  - now apply NoDup_filter.
Qed.

Lemma first_occurrences_snoc (l : list string) (c : string) :
  first_occurrences (l ++ [c])
  = if existsb (String.eqb c) l then first_occurrences l else (first_occurrences l ++ [c])%list.
Proof.
  induction l as [|x l IH]; simpl; [reflexivity|].
  rewrite IH. destruct (String.eqb c x) eqn:E; simpl.
  - apply String.eqb_eq in E. subst x.
    destruct (existsb (String.eqb c) l); [reflexivity|].
    rewrite filter_app. simpl. rewrite String.eqb_refl. simpl. now rewrite app_nil_r.
  - destruct (existsb (String.eqb c) l); [reflexivity|].
    rewrite filter_app. simpl. now rewrite E.
Qed.

(** ** Objects as ordered lists of own properties *)

Section ObjFacts.

Context {A : Type}.

Lemma own_map_keys (g : string -> A) (ks : list string) (c : string) :
  own c (map (fun k => (k, g k)) ks)
  = if existsb (String.eqb c) ks then Some (g c) else None.
Proof.
  induction ks as [|k ks IH]; simpl; [reflexivity|].
  rewrite (String.eqb_sym c k).
  destruct (String.eqb k c) eqn:E; simpl; [|exact IH].
  apply String.eqb_eq in E. now subst.
Qed.

Lemma update_app_new (k : string) (f : A -> A) (v : A) (o : Obj A) :
  own k o = None -> update k f (o ++ [(k, v)])%list = (o ++ [(k, f v)])%list.
Proof.
  induction o as [|[k' v'] o IH]; simpl.
  - now rewrite String.eqb_refl.
  - destruct (String.eqb k' k); [discriminate|].
    intros H. now rewrite IH.
Qed.

Lemma update_map_keys (g : string -> A) (f : A -> A) (ks : list string) (c : string) :
  NoDup ks ->
  update c f (map (fun k => (k, g k)) ks)
  = map (fun k => (k, if String.eqb k c then f (g k) else g k)) ks.
Proof.
  induction 1 as [|k ks Hnotin Hnodup IH]; simpl; [reflexivity|].
  destruct (String.eqb k c) eqn:E.
  - f_equal. apply map_ext_in. intros k' Hin.
    destruct (String.eqb k' c) eqn:E'; [|reflexivity].
    apply String.eqb_eq in E, E'. subst. contradiction.
  - now rewrite IH.
Qed.

Lemma insert_by_index_perm (n : N) (entry : string * A) (sorted : list (N * (string * A))) :
  Permutation (map snd (insert_by_index n entry sorted)) (entry :: map snd sorted).
Proof.
  induction sorted as [|[m e] sorted IH]; simpl; [reflexivity|].
  destruct (n <=? m)%N; simpl; [reflexivity|].
  rewrite IH. apply perm_swap.
Qed.

(** [Object.entries] lists every own property once. *)
Lemma Object_entries_perm (o : Obj A) : Permutation (Object_entries o) o.
Proof.
  unfold Object_entries.
  induction o as [|[k v] o IH]; simpl; [reflexivity|].
  destruct (array_index k) as [n|].
  - rewrite insert_by_index_perm. simpl. now constructor.
  - rewrite <- Permutation_middle. now constructor.
Qed.

(** Without array-index keys the order is the order of creation. *)
Lemma Object_entries_named (o : Obj A) :
  (forall k, In k (map fst o) -> array_index k = None) ->
  Object_entries o = o.
Proof.
  intros H. unfold Object_entries.
  assert (Hboth : index_entries o = [] /\ named_entries o = o).
  { induction o as [|[k v] o IH]; simpl; [now split|].
    rewrite (H k (or_introl eq_refl)).
    destruct IH as [Hi Hn]; [intros; apply H; now right|].
    now rewrite Hi, Hn. }
  destruct Hboth as [-> ->]. reflexivity.
Qed.

End ObjFacts.

(** ** Grouping the questions by category (command-menu.tsx, 103-112) *)

Section Grouping.

Context {Num Any : Type}.

Lemma reduce_snoc {B : Type} (callback : B -> Catalogue.Question Num Any -> option B)
    (l : list (Catalogue.Question Num Any)) (q : Catalogue.Question Num Any) (acc : B) :
  CommandMenu.reduce callback (l ++ [q]) acc
  = match CommandMenu.reduce callback l acc with
    | Some a => callback a q
    | None => None
    end.
Proof.
  revert acc. induction l as [|x l IH]; intros acc; simpl.
  - now destruct (callback acc q).
  - destruct (callback acc x); [apply IH | reflexivity].
Qed.

Lemma filter_category_absent (l : list (Catalogue.Question Num Any)) (c : string) :
  ~ In c (map Catalogue.category l) ->
  filter (fun q => String.eqb (Catalogue.category q) c) l = [].
Proof.
  induction l as [|x l IH]; simpl; [reflexivity|].
  intros H. destruct (String.eqb (Catalogue.category x) c) eqn:E.
  - apply String.eqb_eq in E. elim H. now left.
  - apply IH. intros Hin. apply H. now right.
Qed.

Lemma reduce_group_step (l : list (Catalogue.Question Num Any)) :
  CommandMenu.reduce CommandMenu.group_step l []
  = if existsb (fun q => inherited (Catalogue.category q)) l
    then None
    else Some (by_category l).
Proof.
  induction l as [|q l IH] using rev_ind; [reflexivity|].
  rewrite reduce_snoc, IH, existsb_app. simpl. rewrite orb_false_r.
  destruct (existsb (fun q => inherited (Catalogue.category q)) l) eqn:Hin; [reflexivity|].
  simpl. unfold CommandMenu.group_step.
  set (c := Catalogue.category q).
  unfold by_category at 1. rewrite own_map_keys.
  assert (Hmap : map Catalogue.category (l ++ [q]) = (map Catalogue.category l ++ [c])%list)
    by now rewrite map_app.
  assert (Hfilter : forall k,
             filter (fun x => String.eqb (Catalogue.category x) k) (l ++ [q])
             = (filter (fun x => String.eqb (Catalogue.category x) k) l
                ++ if String.eqb k c then [q] else [])%list).
  { intros k. rewrite filter_app. simpl. fold c. now rewrite (String.eqb_sym c k). }
  destruct (existsb (String.eqb c) (first_occurrences (map Catalogue.category l))) eqn:Hc.
  - (* the category has its group already *)
    apply existsb_eqb_In in Hc. apply (proj1 (first_occurrences_In _ _)) in Hc.
    assert (Hnot : inherited c = false).
    { apply in_map_iff in Hc. destruct Hc as (x & Hx & Hxl).
      rewrite <- Hx.
      destruct (inherited (Catalogue.category x)) eqn:E; [|reflexivity].
      assert (existsb (fun q => inherited (Catalogue.category q)) l = true)
        by (apply existsb_exists; now exists x).
      congruence. }
    rewrite Hnot. f_equal.
    unfold by_category. rewrite update_map_keys by apply first_occurrences_NoDup.
    rewrite Hmap, first_occurrences_snoc.
    rewrite (proj2 (existsb_eqb_In _ _) Hc).
    apply map_ext. intros k. rewrite Hfilter.
    destruct (String.eqb k c); [reflexivity | now rewrite app_nil_r].
  - (* a new category *)
    destruct (inherited c); [reflexivity|]. f_equal.
    assert (Hnotin : ~ In c (map Catalogue.category l)).
    { intros H. apply (proj2 (first_occurrences_In _ _)) in H.
      apply (proj2 (existsb_eqb_In _ _)) in H. congruence. }
    rewrite update_app_new.
    2:{ unfold by_category. rewrite own_map_keys. now rewrite Hc. }
    unfold by_category. rewrite Hmap, first_occurrences_snoc.
    destruct (existsb (String.eqb c) (map Catalogue.category l)) eqn:Hc'.
    { apply existsb_eqb_In in Hc'. contradiction. }
    rewrite map_app. simpl. f_equal.
    + apply map_ext_in. intros k Hk. rewrite Hfilter.
      destruct (String.eqb k c) eqn:E; [|now rewrite app_nil_r].
      apply String.eqb_eq in E. subst k.
      apply (proj1 (first_occurrences_In _ _)) in Hk. contradiction.
    + rewrite Hfilter, String.eqb_refl. now rewrite filter_category_absent.
Qed.

End Grouping.

(** X4.  The command menu's grouping throws exactly when some question's
    category is the name of a property every object inherits (such as
    [constructor] or [toString]): the lookup [acc[category]] then finds
    the inherited value, which has no [push]. *)
Theorem X4_grouping_throws_on_inherited_names {Num Any : Type}
    (allQuestions : list (Catalogue.Question Num Any)) :
  CommandMenu.grouped allQuestions = None
  <-> exists q, In q allQuestions /\ inherited (Catalogue.category q) = true.
Proof.
  unfold CommandMenu.grouped. rewrite reduce_group_step.
  destruct (existsb (fun q => inherited (Catalogue.category q)) allQuestions) eqn:E; simpl.
  - split; [intros _ | reflexivity].
    apply existsb_exists in E. exact E.
  - split; [discriminate|].
    intros (q & Hin & Hq).
    assert (existsb (fun q => inherited (Catalogue.category q)) allQuestions = true)
      by (apply existsb_exists; now exists q).
    congruence.
Qed.

Lemma grouped_Some {Num Any : Type} (allQuestions : list (Catalogue.Question Num Any)) gs :
  CommandMenu.grouped allQuestions = Some gs ->
  gs = Object_entries (by_category allQuestions).
Proof.
  unfold CommandMenu.grouped. rewrite reduce_group_step.
  destruct (existsb _ allQuestions); simpl; congruence.
Qed.

(** The groups hold the questions of their heading. *)
Lemma grouped_parts {Num Any : Type}
    (allQuestions : list (Catalogue.Question Num Any))
    (gs : list (string * list (Catalogue.Question Num Any))) :
  CommandMenu.grouped allQuestions = Some gs ->
  NoDup (map fst gs)
  /\ (forall heading qs,
         In (heading, qs) gs ->
         qs <> []
         /\ qs = filter (fun q => String.eqb (Catalogue.category q) heading) allQuestions)
  /\ (forall q, In q allQuestions -> exists qs, In (Catalogue.category q, qs) gs /\ In q qs).
Proof.
  intros H. apply grouped_Some in H. subst gs.
  pose proof (Object_entries_perm (by_category allQuestions)) as Hperm.
  split; [|split].
  - apply (Permutation_NoDup (Permutation_sym (Permutation_map fst Hperm))).
    unfold by_category. rewrite map_map. simpl. rewrite map_id.
    apply first_occurrences_NoDup.
  - intros heading qs Hin.
    apply (Permutation_in _ Hperm) in Hin.
    unfold by_category in Hin. apply in_map_iff in Hin.
    destruct Hin as (c & [= <- <-] & Hc). split; [|reflexivity].
    apply (proj1 (first_occurrences_In _ _)) in Hc. apply in_map_iff in Hc.
    destruct Hc as (q & Hq & Hql).
    intros Hnil.
    assert (In q (filter (fun q0 => String.eqb (Catalogue.category q0) c) allQuestions))
      by (apply filter_In; split; [exact Hql | now apply String.eqb_eq]).
    now rewrite Hnil in *.
  - intros q Hq.
    exists (filter (fun x => String.eqb (Catalogue.category x) (Catalogue.category q)) allQuestions).
    split.
    + apply (Permutation_in _ (Permutation_sym Hperm)).
      unfold by_category. apply in_map_iff. exists (Catalogue.category q). split; [reflexivity|].
      apply first_occurrences_In. now apply in_map.
    + apply filter_In. split; [exact Hq | apply String.eqb_refl].
Qed.

(** X5.  When the grouping succeeds, the groups partition the questions:
    the headings are distinct, the group of a heading holds exactly the
    questions of that category, in their original order, and is never
    empty, and every question's category has its group. *)
Theorem X5_groups_partition_the_questions {Num Any : Type}
    (allQuestions : list (Catalogue.Question Num Any))
    (gs : list (string * list (Catalogue.Question Num Any))) :
  CommandMenu.grouped allQuestions = Some gs ->
  NoDup (map fst gs)
  /\ (forall heading qs,
         In (heading, qs) gs ->
         qs <> []
         /\ qs = filter (fun q => String.eqb (Catalogue.category q) heading) allQuestions)
  /\ (forall q, In q allQuestions -> exists qs, In (Catalogue.category q, qs) gs /\ In q qs).
Proof.
  apply grouped_parts.
Qed.

(** X6.  When no category is an array index (the canonical decimal text
    of an integer below 2^32 - 1), the groups come in the order in which
    their categories first appear among the questions. *)
Theorem X6_groups_keep_first_appearance_order {Num Any : Type}
    (allQuestions : list (Catalogue.Question Num Any))
    (gs : list (string * list (Catalogue.Question Num Any))) :
  CommandMenu.grouped allQuestions = Some gs ->
  (forall q, In q allQuestions -> array_index (Catalogue.category q) = None) ->
  map fst gs = first_occurrences (map Catalogue.category allQuestions).
Proof.
  intros H Hnamed. apply grouped_Some in H. subst gs.
  assert (Hkeys : map fst (by_category allQuestions)
                  = first_occurrences (map Catalogue.category allQuestions)).
  { unfold by_category. rewrite map_map. simpl. apply map_id. }
  rewrite Object_entries_named; [exact Hkeys|].
  intros k Hk. rewrite Hkeys in Hk.
  apply (proj1 (first_occurrences_In _ _)) in Hk. apply in_map_iff in Hk.
  destruct Hk as (q & <- & Hq). now apply Hnamed.
Qed.

(** X8.  Every item of the rendered list belongs to a question of its
    group's category; selecting it closes the menu and pushes the anchor
    of that question. *)
Theorem X8_selecting_an_item_navigates_to_its_question {Num Any : Type}
    (allQuestions : list (Catalogue.Question Num Any))
    (rendered : list (string * list (CommandMenu.Item Num)))
    (heading : string) (items : list (CommandMenu.Item Num)) (it : CommandMenu.Item Num)
    (m : CommandMenu.Menu) :
  CommandMenu.groups allQuestions = Some rendered ->
  In (heading, items) rendered ->
  In it items ->
  exists q,
    In q allQuestions
    /\ Catalogue.category q = heading
    /\ CommandMenu.value it = Catalogue.title q ++ " " ++ Catalogue.id q
    /\ CommandMenu.navigateToQuestion (CommandMenu.onSelect it) m
       = CommandMenu.mkMenu false (CommandMenu.pushed m ++ [("/#" ++ Catalogue.id q)%string])%list.
Proof.
  unfold CommandMenu.groups. intros Hgroups Hin Hit.
  destruct (CommandMenu.grouped allQuestions) as [gs|] eqn:Hgs; [|discriminate].
  simpl in Hgroups. injection Hgroups as <-.
  apply in_map_iff in Hin. destruct Hin as ([h qs] & [= <- <-] & Hentry).
  simpl in Hit. apply in_map_iff in Hit. destruct Hit as (q & <- & Hq).
  destruct (grouped_parts allQuestions gs Hgs) as (_ & Hparts & _).
  destruct (Hparts h qs Hentry) as (_ & Hqs).
  rewrite Hqs in Hq. apply filter_In in Hq. destruct Hq as [Hql Hcat].
  exists q. split; [exact Hql|]. split; [now apply String.eqb_eq|]. split; reflexivity.
Qed.

(** ** The command menu's shortcut *)

Lemma menu_run_app (before after : list MenuEvent) (m : CommandMenu.Menu) :
  menu_run (before ++ after) m = menu_run after (menu_run before m).
Proof.
  unfold menu_run. apply fold_left_app.
Qed.

Lemma document_events_flip_by_parity (events : list MenuEvent) (m : CommandMenu.Menu) :
  forallb on_document events = true ->
  CommandMenu.open (menu_run events m)
  = xorb (CommandMenu.open m) (Nat.odd (length (filter flips events)))
  /\ CommandMenu.pushed (menu_run events m) = CommandMenu.pushed m.
Proof.
  unfold menu_run. revert m.
  induction events as [|ev events IH]; intros m Hdoc; simpl.
  - now rewrite xorb_false_r.
  - simpl in Hdoc. apply andb_true_iff in Hdoc. destruct Hdoc as [Hev Hdoc].
    destruct (IH (menu_step ev m) Hdoc) as [Hopen Hpushed].
    rewrite Hopen, Hpushed.
    destruct ev as [e| |e|value|id]; try discriminate; simpl.
    + unfold CommandMenu.down.
      destruct (String.eqb (CommandMenu.key e) "k"
                && (CommandMenu.metaKey e || CommandMenu.ctrlKey e)); simpl.
      * split; [|reflexivity].
        rewrite Nat.odd_succ, <- Nat.negb_odd.
        destruct (CommandMenu.open m), (Nat.odd _); reflexivity.
      * now split.
    + split; [|reflexivity].
      rewrite Nat.odd_succ, <- Nat.negb_odd.
      destruct (CommandMenu.open m), (Nat.odd _); reflexivity.
Qed.

(** X9.  The menu's [open] cell is written by five handlers.  Escape in
    the dialog closes the menu and any other key there leaves it;
    [onOpenChange] sets it to the value given; selecting an item closes
    it.  From whatever state such calls leave, a series of calls that
    reach the document's listener flips the cell once per Quick
    Navigation press and once per lower-case [k] pressed with the
    control or the meta key, and for no other key (an upper-case [K]
    included): the menu ends open exactly when the count of flips is odd
    from closed or even from open, and nothing is pushed to the router.
    In particular the Quick Navigation button toggles the menu rather
    than opening it. *)
Theorem X9_shortcut_toggles_by_parity (before after : list MenuEvent)
    (m : CommandMenu.Menu) :
  forallb on_document after = true ->
  (CommandMenu.open (menu_run (before ++ after) m)
   = xorb (CommandMenu.open (menu_run before m)) (Nat.odd (length (filter flips after)))
   /\ CommandMenu.pushed (menu_run (before ++ after) m)
      = CommandMenu.pushed (menu_run before m))
  /\ (forall e,
         CommandMenu.open (menu_run (before ++ [DialogKeyDown e]) m)
         = if String.eqb (CommandMenu.key e) "Escape"
           then false
           else CommandMenu.open (menu_run before m))
  /\ (forall value, CommandMenu.open (menu_run (before ++ [OpenChange value]) m) = value)
  /\ (forall id,
         menu_run (before ++ [ItemSelected id]) m
         = CommandMenu.mkMenu false
             (CommandMenu.pushed (menu_run before m) ++ [("/#" ++ id)%string])%list).
Proof.
  intros Hdoc. split; [|split; [|split]].
  - rewrite menu_run_app. now apply document_events_flip_by_parity.
  - intros e. rewrite menu_run_app. simpl. unfold CommandMenu.handleKeyDown.
    now destruct (String.eqb (CommandMenu.key e) "Escape").
  - intros value. now rewrite menu_run_app.
  - intros id. now rewrite menu_run_app.
Qed.

(** X9 on a series: the shortcut opens the menu, Escape closes it, then
    the button, an upper-case [K] with control and the shortcut again
    leave it closed. *)
Lemma X9_shortcut_toggles_by_parity_witness :
  CommandMenu.open
    (menu_run
       ([ DocumentKeyDown (CommandMenu.mkKeyboardEvent "k" false true);
          DialogKeyDown (CommandMenu.mkKeyboardEvent "Escape" false false) ]
        ++ [ QuickNavigation;
             DocumentKeyDown (CommandMenu.mkKeyboardEvent "K" false true);
             DocumentKeyDown (CommandMenu.mkKeyboardEvent "k" true false) ])
       (CommandMenu.mkMenu false []))
  = xorb
      (CommandMenu.open
         (menu_run
            [ DocumentKeyDown (CommandMenu.mkKeyboardEvent "k" false true);
              DialogKeyDown (CommandMenu.mkKeyboardEvent "Escape" false false) ]
            (CommandMenu.mkMenu false [])))
      (Nat.odd (length (filter flips
         [ QuickNavigation;
           DocumentKeyDown (CommandMenu.mkKeyboardEvent "K" false true);
           DocumentKeyDown (CommandMenu.mkKeyboardEvent "k" true false) ]))).
Proof.
  refine (proj1 (proj1 (X9_shortcut_toggles_by_parity _ _ (CommandMenu.mkMenu false []) _))).
  reflexivity.
Defined.

(** ** The floating navigation *)

Lemma length_append (a b : string) :
  String.length (a ++ b) = (String.length a + String.length b)%nat.
Proof.
  induction a as [|c a IH]; simpl; [reflexivity | now rewrite IH].
Qed.

Lemma length_substring_0 (n : nat) (s : string) :
  String.length (String.substring 0 n s) = Nat.min n (String.length s).
Proof.
  revert s. induction n as [|n IH]; intros [|c s]; simpl; try reflexivity.
  now rewrite IH.
Qed.

Lemma js_substring_0 (n : nat) (s : string) :
  js_substring 0 n s = String.substring 0 n s.
Proof.
  unfold js_substring.
  rewrite Nat.min_0_l, Nat.max_0_l, Nat.sub_0_r.
  revert s. induction n as [|n IH]; intros [|c s]; simpl; try reflexivity.
  specialize (IH s). simpl in IH. now rewrite IH.
Qed.

Lemma substring_0_append (a b : string) :
  String.substring 0 (String.length a) (a ++ b) = a.
Proof.
  induction a as [|c a IH]; simpl.
  - now destruct b.
  - now rewrite IH.
Qed.

Lemma substring_0_all (n : nat) (s : string) :
  (String.length s <= n)%nat -> String.substring 0 n s = s.
Proof.
  revert s. induction n as [|n IH]; intros [|c s]; simpl; intros H; try reflexivity.
  - lia.
  - rewrite IH; [reflexivity | lia].
Qed.

(** X10.  The title shown in a link of the floating navigation is never
    longer than 33 code units and always starts like the title: a title
    of at most 30 code units is shown as it is, a longer one as its
    first 30 code units followed by three dots (so a title of 31 or 32
    code units is shown longer than it is). *)
Theorem X10_link_title_is_bounded (title : string) :
  String.length (FloatingNav.link_title title)
  = (if (30 <? String.length title)%nat then 33%nat else String.length title)
  /\ js_substring 0 30 (FloatingNav.link_title title) = js_substring 0 30 title
  /\ FloatingNav.link_title title
     = (if (30 <? String.length title)%nat
        then String.substring 0 30 title ++ "..."
        else title).
Proof.
  unfold FloatingNav.link_title. rewrite !js_substring_0.
  destruct (30 <? String.length title)%nat eqn:E.
  - apply Nat.ltb_lt in E.
    assert (Hlen : String.length (String.substring 0 30 title) = 30%nat)
      by (rewrite length_substring_0; lia).
    split; [|split].
    + rewrite length_append, Hlen. reflexivity.
    + rewrite <- Hlen at 1. apply substring_0_append.
    + reflexivity.
  - repeat split.
Qed.

(** X11.  [getQuestionIdByNumber] returns the id of the first question
    carrying the number, and when no question carries it, the letter [q]
    followed by the number. *)
Theorem X11_getQuestionIdByNumber_finds_the_first {Num Any : Type}
    (strict_equal : Num -> Num -> bool) (Num_toString : Num -> string)
    (questions : list (Catalogue.Question Num Any)) (num : Num) :
  (exists before question after,
      questions = (before ++ question :: after)%list
      /\ strict_equal (Catalogue.number question) num = true
      /\ (forall q, In q before -> strict_equal (Catalogue.number q) num = false)
      /\ FloatingNav.getQuestionIdByNumber strict_equal Num_toString questions num
         = Catalogue.id question)
  \/
  ((forall q, In q questions -> strict_equal (Catalogue.number q) num = false)
   /\ FloatingNav.getQuestionIdByNumber strict_equal Num_toString questions num
      = "q" ++ Num_toString num).
Proof.
  unfold FloatingNav.getQuestionIdByNumber.
  induction questions as [|x questions IH]; simpl.
  - right. split; [intros q []| reflexivity].
  - destruct (strict_equal (Catalogue.number x) num) eqn:E.
    + left. exists [], x, questions. repeat split; auto. intros q [].
    + destruct IH as [(before & question & after & -> & Hq & Hbefore & Hid) | (Hnone & Hid)].
      * left. exists (x :: before), question, after. repeat split; auto.
        intros q [<-|Hin]; auto.
      * right. split; [|exact Hid]. intros q [<-|Hin]; auto.
Qed.

(** X12.  After the observer's callback the active section is the target
    of the last intersecting entry, and it is unchanged when no entry
    intersects. *)
Theorem X12_last_intersecting_entry_is_active (entries : list FloatingNav.Entry)
    (activeSection : string) :
  FloatingNav.observed entries activeSection
  = match find FloatingNav.isIntersecting (rev entries) with
    | Some entry => FloatingNav.target_id entry
    | None => activeSection
    end.
Proof.
  unfold FloatingNav.observed.
  induction entries as [|e entries IH] using rev_ind; [reflexivity|].
  rewrite fold_left_app, rev_app_distr. simpl.
  destruct (FloatingNav.isIntersecting e); [reflexivity | exact IH].
Qed.

(** ** The sidebar *)

Lemma js_replace_prefix (pattern replacement rest : string) :
  js_replace pattern replacement (pattern ++ rest) = replacement ++ rest.
Proof.
  assert (Hdrop : drop (String.length pattern) (pattern ++ rest) = rest)
    by (induction pattern as [|c p IH]; simpl; [now destruct rest | exact IH]).
  destruct pattern as [|c p]; simpl.
  - destruct rest; reflexivity.
  - pose proof (starts_with_app (String c p) rest) as H. simpl in H.
    unfold starts_with in *. simpl in *. rewrite H. simpl in Hdrop. now rewrite Hdrop.
Qed.

(** X13.  The link of a question and the hash it leads to agree: when the
    hash is [#] followed by the id (whatever the id holds, further [#]
    included), the listener makes that id the active one, so the click
    and the [hashchange] it causes leave the same state and the link is
    shown active; an empty hash clears the active id. *)
Theorem X13_hash_of_a_link_activates_it (question_id : string) (s : Sidebar.State) :
  Sidebar.hashchange ("#" ++ question_id) s = Sidebar.link_onClick question_id s
  /\ Sidebar.hashchange ("#" ++ question_id) (Sidebar.link_onClick question_id s)
     = Sidebar.link_onClick question_id s
  /\ Sidebar.is_active (Sidebar.hashchange ("#" ++ question_id) s) question_id = true
  /\ Sidebar.activeId (Sidebar.hashchange "" s) = "".
Proof.
  unfold Sidebar.hashchange, Sidebar.link_onClick, Sidebar.is_active.
  rewrite (js_replace_prefix "#" "" question_id). simpl.
  repeat split. apply String.eqb_refl.
Qed.

(** ** Numeric category names *)

Section IndexOrder.

Context {A : Type}.

Lemma insert_by_index_sorted (n : N) (entry : string * A) (s : list (N * (string * A))) :
  Sorted N.le (map fst s) -> Sorted N.le (map fst (insert_by_index n entry s)).
Proof.
  induction s as [|[m e] s IH]; simpl; intros Hs.
  - repeat constructor.
  - destruct (n <=? m)%N eqn:E; simpl.
    + constructor; [exact Hs|]. constructor. now apply N.leb_le.
    + apply N.leb_gt in E. inversion Hs as [|? ? Hsorted Hhd]; subst.
      constructor; [now apply IH|].
      destruct s as [|[m' e'] s']; simpl.
      * constructor. lia.
      * destruct (n <=? m')%N; simpl; constructor; [lia|].
        now inversion Hhd.
Qed.

Lemma index_entries_sorted (o : Obj A) : Sorted N.le (map fst (index_entries o)).
Proof.
  induction o as [|[k v] o IH]; simpl; [constructor|].
  destruct (array_index k); [now apply insert_by_index_sorted | exact IH].
Qed.

Lemma insert_by_index_In (n : N) (entry : string * A) (s : list (N * (string * A))) x :
  In x (insert_by_index n entry s) <-> x = (n, entry) \/ In x s.
Proof.
  induction s as [|[m e] s IH]; simpl; [intuition|].
  destruct (n <=? m)%N; simpl; [intuition|].
  rewrite IH. intuition.
Qed.

Lemma index_entries_keys (o : Obj A) :
  Forall (fun e => array_index (fst (snd e)) = Some (fst e)) (index_entries o).
Proof.
  apply Forall_forall.
  induction o as [|[k v] o IH]; simpl; [intros x []|].
  destruct (array_index k) as [n|] eqn:E; [|exact IH].
  intros x Hx. apply insert_by_index_In in Hx. destruct Hx as [->|Hx]; [exact E | now apply IH].
Qed.

Lemma index_entries_perm (o : Obj A) :
  Permutation (map (fun e => fst (snd e)) (index_entries o))
    (filter (fun c => match array_index c with Some _ => true | None => false end)
       (map fst o)).
Proof.
  induction o as [|[k v] o IH]; simpl; [reflexivity|].
  destruct (array_index k) as [n|]; [|exact IH].
  rewrite <- IH. rewrite <- !(map_map snd fst).
  rewrite insert_by_index_perm. reflexivity.
Qed.

Lemma named_entries_keys (o : Obj A) :
  map fst (named_entries o)
  = filter (fun c => match array_index c with Some _ => false | None => true end)
      (map fst o).
Proof.
  induction o as [|[k v] o IH]; simpl; [reflexivity|].
  destruct (array_index k); simpl; [exact IH | now rewrite IH].
Qed.

End IndexOrder.

(** X7.  In general the groups whose category is an array index come
    first, in ascending numeric order; the other groups follow in the
    order in which their categories first appear. *)
Theorem X7_numeric_categories_come_first {Num Any : Type}
    (allQuestions : list (Catalogue.Question Num Any))
    (gs : list (string * list (Catalogue.Question Num Any))) :
  CommandMenu.grouped allQuestions = Some gs ->
  exists numeric : list (N * string),
    map fst gs
    = (map snd numeric
       ++ filter (fun c => match array_index c with Some _ => false | None => true end)
            (first_occurrences (map Catalogue.category allQuestions)))%list
    /\ Sorted N.le (map fst numeric)
    /\ Forall (fun e => array_index (snd e) = Some (fst e)) numeric
    /\ Permutation (map snd numeric)
         (filter (fun c => match array_index c with Some _ => true | None => false end)
            (first_occurrences (map Catalogue.category allQuestions))).
Proof.
  intros H. apply grouped_Some in H. subst gs.
  assert (Hkeys : map fst (by_category allQuestions)
                  = first_occurrences (map Catalogue.category allQuestions)).
  { unfold by_category. rewrite map_map. simpl. apply map_id. }
  exists (map (fun e => (fst e, fst (snd e))) (index_entries (by_category allQuestions))).
  rewrite <- Hkeys. split; [|split; [|split]].
  - unfold Object_entries. rewrite map_app, !map_map, named_entries_keys. reflexivity.
  - rewrite map_map. simpl. apply index_entries_sorted.
  - apply Forall_map. simpl. apply index_entries_keys.
  - rewrite map_map. simpl. apply index_entries_perm.
Qed.

(** ** The concept card *)

(** X14.  A card shows the wrapper of the visualization exactly when the
    question has one, and inside it at most one diagram, of the kind
    named by [type] and fed with the data of that kind: a flow diagram
    needs both [nodes] and [edges] (empty lists will do), a chart must
    be a non-empty text, a timeline needs [events].  When that data is
    missing the wrapper stays empty. *)
Theorem X14_card_draws_the_diagram_of_its_type {Num Any : Type}
    (question : Catalogue.Question Num Any) (isExpanded : bool) :
  match ConceptCard.wrapper (ConceptCard.render question isExpanded) with
  | None => Catalogue.visualization question = None
  | Some inner =>
      exists v,
        Catalogue.visualization question = Some v /\
        match inner with
        | Some (ConceptCard.FlowDiagram nodes edges) =>
            Catalogue.type v = Catalogue.flow
            /\ Catalogue.nodes v = Some nodes /\ Catalogue.edges v = Some edges
        | Some (ConceptCard.MermaidDiagram chart) =>
            Catalogue.type v = Catalogue.mermaid
            /\ Catalogue.chart v = Some chart /\ chart <> ""
        | Some (ConceptCard.Timeline events) =>
            Catalogue.type v = Catalogue.timeline /\ Catalogue.events v = Some events
        | None =>
            match Catalogue.type v with
            | Catalogue.flow => Catalogue.nodes v = None \/ Catalogue.edges v = None
            | Catalogue.mermaid => Catalogue.chart v = None \/ Catalogue.chart v = Some ""
            | Catalogue.timeline => Catalogue.events v = None
            end
        end
  end.
Proof.
  unfold ConceptCard.render. simpl.
  destruct (Catalogue.visualization question) as [v|]; [|reflexivity].
  exists v. split; [reflexivity|]. simpl.
  destruct (Catalogue.type v) eqn:Et.
  - destruct (Catalogue.nodes v), (Catalogue.edges v); auto.
  - destruct (Catalogue.chart v) as [[|c s]|]; simpl; auto.
    repeat split; discriminate.
  - destruct (Catalogue.events v); auto.
Qed.

(** ** The category lists *)

Lemma filter_disjoint_perm {A : Type} (p r : A -> bool) (l : list A) :
  (forall x, p x = true -> r x = false) ->
  Permutation (filter p l ++ filter r l) (filter (fun x => p x || r x) l).
Proof.
  intros Hdisj. induction l as [|x l IH]; simpl; [reflexivity|].
  destruct (p x) eqn:Ep; simpl.
  - rewrite (Hdisj x Ep). now constructor.
  - destruct (r x); [|exact IH].
    rewrite <- Permutation_middle. now constructor.
Qed.

Lemma filters_by_name_perm {Num Any : Type} (questions : list (Catalogue.Question Num Any))
    (names : list string) :
  NoDup names ->
  Permutation
    (flat_map (QuestionsData.in_category questions) names)
    (filter (fun q => existsb (String.eqb (Catalogue.category q)) names) questions).
Proof.
  induction 1 as [|n names Hnotin Hnodup IH]; simpl.
  - induction questions; simpl; auto.
  - rewrite IH. unfold QuestionsData.in_category.
    apply filter_disjoint_perm.
    intros q Hq. apply String.eqb_eq in Hq.
    destruct (existsb (String.eqb (Catalogue.category q)) names) eqn:E; [|reflexivity].
    apply existsb_eqb_In in E. now rewrite Hq in E.
Qed.

(** X15.  The categories built by filtering hold, between them, exactly
    the questions whose category is the name of one of the six
    categories, each such question once and under the category of that
    name, in the original order within a category.  A question with
    any other category is in no category, though [getAllQuestions]
    still returns it. *)
Theorem X15_filtered_categories_partition_the_known_questions {Num Any : Type}
    (questions : list (Catalogue.Question Num Any)) :
  (forall c, In c (QuestionsData.categories questions) ->
             Catalogue.questions c
             = filter (fun q => String.eqb (Catalogue.category q) (Catalogue.name c))
                 (QuestionsData.getAllQuestions questions))
  /\ Permutation
       (flat_map Catalogue.questions (QuestionsData.categories questions))
       (filter (fun q => existsb (String.eqb (Catalogue.category q))
                           (map Catalogue.name (QuestionsData.categories questions)))
          (QuestionsData.getAllQuestions questions))
  /\ (forall q c, In c (QuestionsData.categories questions) ->
                  In q (Catalogue.questions c) ->
                  In q (QuestionsData.getAllQuestions questions)
                  /\ Catalogue.category q = Catalogue.name c).
Proof.
  assert (Hfirst : forall c, In c (QuestionsData.categories questions) ->
             Catalogue.questions c
             = filter (fun q => String.eqb (Catalogue.category q) (Catalogue.name c))
                 (QuestionsData.getAllQuestions questions)).
  { intros c Hc. simpl in Hc.
    repeat (destruct Hc as [<-|Hc]; [reflexivity|]). destruct Hc. }
  split; [exact Hfirst|]. split.
  - pose proof (filters_by_name_perm questions
                  (map Catalogue.name (QuestionsData.categories questions))) as H.
    simpl in H. simpl. rewrite !app_nil_r in *. apply H.
    repeat (constructor; [simpl; intuition discriminate|]). constructor.
  - intros q c Hc Hq. rewrite (Hfirst c Hc) in Hq. apply filter_In in Hq.
    destruct Hq as [Hin Heq]. split; [exact Hin | now apply String.eqb_eq].
Qed.

(** X16.  The index of the questions directory fails to load exactly
    when the core module exports no list of questions.  Otherwise it
    loads, a missing list of any other module counting as empty: the six
    categories hold, in order, the lists of the six modules, and the
    list of all questions, which [getAllQuestions] returns, is their
    concatenation in that order. *)
Theorem X16_index_lists_the_categories_in_order {Num Any : Type}
    (CoreJavaScript AsyncJavaScript FancyFeatures ObjectsArrays SpecialTheory Frontend
       : option (list (Catalogue.Question Num Any))) :
  (QuestionsIndex.module CoreJavaScript AsyncJavaScript FancyFeatures
     ObjectsArrays SpecialTheory Frontend = None
   <-> CoreJavaScript = None)
  /\
  (forall core,
      CoreJavaScript = Some core ->
      exists categories,
        QuestionsIndex.module CoreJavaScript AsyncJavaScript FancyFeatures
          ObjectsArrays SpecialTheory Frontend
        = Some (flat_map Catalogue.questions categories, categories)
        /\ QuestionsIndex.getAllQuestions CoreJavaScript AsyncJavaScript FancyFeatures
             ObjectsArrays SpecialTheory Frontend
           = Some (flat_map Catalogue.questions categories)
        /\ map Catalogue.category_id categories
           = [ "core-javascript"; "async-javascript"; "fancy-features";
               "objects-arrays"; "special-theory"; "frontend" ]
        /\ map Catalogue.questions categories
           = [ core;
               match AsyncJavaScript with Some l => l | None => [] end;
               match FancyFeatures with Some l => l | None => [] end;
               match ObjectsArrays with Some l => l | None => [] end;
               match SpecialTheory with Some l => l | None => [] end;
               match Frontend with Some l => l | None => [] end ]).
Proof.
  unfold QuestionsIndex.module, QuestionsIndex.getAllQuestions, QuestionsIndex.questions.
  split.
  - destruct CoreJavaScript; split; congruence.
  - intros core ->.
    exists (QuestionsIndex.categories AsyncJavaScript FancyFeatures
              ObjectsArrays SpecialTheory Frontend core).
    simpl. rewrite app_nil_r. repeat split.
Qed.

(** ** Witnesses on the sample catalogue *)

(** X5 on the sample catalogue: two groups, the first category first. *)
Lemma X5_groups_partition_the_questions_witness :
  CommandMenu.grouped SampleCatalogue.questions
  = Some [ ("Core JavaScript",
            [ SampleCatalogue.question "var-let-const" "Core JavaScript" 1
                "What is the difference between var, let, and const in JavaScript?";
              SampleCatalogue.question "hoisting" "Core JavaScript" 2 "What is hoisting?" ]);
           ("Async JavaScript",
            [ SampleCatalogue.question "promises-then" "Async JavaScript" 12
                "How do JavaScript promises work, and what is the then() method?" ]) ]
  /\ NoDup (map fst
       [ ("Core JavaScript",
          [ SampleCatalogue.question "var-let-const" "Core JavaScript" 1
              "What is the difference between var, let, and const in JavaScript?";
            SampleCatalogue.question "hoisting" "Core JavaScript" 2 "What is hoisting?" ]);
         ("Async JavaScript",
          [ SampleCatalogue.question "promises-then" "Async JavaScript" 12
              "How do JavaScript promises work, and what is the then() method?" ]) ]).
Proof.
  split; [reflexivity|].
  exact (proj1 (X5_groups_partition_the_questions SampleCatalogue.questions _ eq_refl)).
Defined.

(** X6 on the sample catalogue. *)
Lemma X6_groups_keep_first_appearance_order_witness :
  option_map (map fst) (CommandMenu.grouped SampleCatalogue.questions)
  = Some ["Core JavaScript"; "Async JavaScript"]
  /\ ["Core JavaScript"; "Async JavaScript"]
     = first_occurrences (map Catalogue.category SampleCatalogue.questions).
Proof.
  split; [reflexivity|].
  refine (X6_groups_keep_first_appearance_order SampleCatalogue.questions
            [ ("Core JavaScript", _); ("Async JavaScript", _) ] eq_refl _).
  intros q [<-|[<-|[<-|[]]]]; reflexivity.
Defined.

(** X7 on questions with the categories [10], [Core JavaScript] and [2]:
    the groups are listed as [2], [10], [Core JavaScript]. *)
Lemma X7_numeric_categories_come_first_witness :
  option_map (map fst) (CommandMenu.grouped SampleCatalogue.numbered)
  = Some ["2"; "10"; "Core JavaScript"]
  /\ exists numeric : list (N * string),
       ["2"; "10"; "Core JavaScript"]
       = (map snd numeric
          ++ filter (fun c => match array_index c with Some _ => false | None => true end)
               (first_occurrences (map Catalogue.category SampleCatalogue.numbered)))%list
       /\ Sorted N.le (map fst numeric)
       /\ Forall (fun e => array_index (snd e) = Some (fst e)) numeric
       /\ Permutation (map snd numeric)
            (filter (fun c => match array_index c with Some _ => true | None => false end)
               (first_occurrences (map Catalogue.category SampleCatalogue.numbered))).
Proof.
  split; [reflexivity|].
  exact (X7_numeric_categories_come_first SampleCatalogue.numbered
           [ ("2", _); ("10", _); ("Core JavaScript", _) ] eq_refl).
Defined.

(** X8 on the sample catalogue: selecting the entry of [hoisting]. *)
Lemma X8_selecting_an_item_navigates_to_its_question_witness :
  exists q,
    In q SampleCatalogue.questions
    /\ Catalogue.category q = "Core JavaScript"
    /\ CommandMenu.value
         (CommandMenu.item (SampleCatalogue.question "hoisting" "Core JavaScript" 2
                              "What is hoisting?"))
       = Catalogue.title q ++ " " ++ Catalogue.id q
    /\ CommandMenu.navigateToQuestion
         (CommandMenu.onSelect
            (CommandMenu.item (SampleCatalogue.question "hoisting" "Core JavaScript" 2
                                 "What is hoisting?")))
         (CommandMenu.mkMenu true [])
       = CommandMenu.mkMenu false ([] ++ [("/#" ++ Catalogue.id q)%string])%list.
Proof.
  refine (X8_selecting_an_item_navigates_to_its_question SampleCatalogue.questions
            _ "Core JavaScript" _ _ (CommandMenu.mkMenu true []) eq_refl _ _).
  - left. reflexivity.
  - right. left. reflexivity.
Defined.

(** ** More on the playground *)



(** X3.  [runCode] never hangs on its own: it fails to return exactly
    when the executed code does not complete, or the conversion of its
    result to a text does not, or the conversion of the caught
    exception does not. *)
Theorem X3_runCode_hangs_only_with_the_code {R : Realm}
    (new_Function_call : string -> HostOp R (JsValue R)) (p : Page R) :
  runCode new_Function_call p = Diverge
  <-> (new_Function_call (code p) (host p) = Diverge
       \/ (exists v h1,
              new_Function_call (code p) (host p) = Normal (v, h1)
              /\ js_String v h1 = Diverge)
       \/ (exists error p1,
              runCode_try new_Function_call (code p) p = Throw (error, p1)
              /\ js_String error (host p1) = Diverge)).
Proof.
  unfold runCode, runCode_closure, try_catch.
  destruct (runCode_try new_Function_call (code p) p) as [[u p0]|[error p1]|] eqn:Htry.
  - split; [discriminate|].
    revert Htry. unfold runCode_try, bind, on_host, setOutput, toast.
    destruct (new_Function_call (code p) (host p)) as [[v h1]|[e h1]|]; simpl; try discriminate.
    destruct (js_String v h1) as [[s h2]|[e h2]|] eqn:Hstr; simpl; try discriminate.
    intros _ [H|[(v' & h' & [= <- <-] & H)|(e & q & H & _)]]; congruence.
  - unfold runCode_catch, bind, on_host, setOutput, toast.
    destruct (js_String error (host p1)) as [[s h2]|[e2 h2]|] eqn:Hstr; simpl.
    + split; [discriminate|].
      intros [H|[(v & h1 & Hcall & H)|(e & q & [= <- <-] & H)]]; [| |congruence].
      * revert Htry. unfold runCode_try, bind, on_host. now rewrite H.
      * revert Htry. unfold runCode_try, bind, on_host. rewrite Hcall. simpl. now rewrite H.
    + split; [discriminate|].
      intros [H|[(v & h1 & Hcall & H)|(e & q & [= <- <-] & H)]]; [| |congruence].
      * revert Htry. unfold runCode_try, bind, on_host. now rewrite H.
      * revert Htry. unfold runCode_try, bind, on_host. rewrite Hcall. simpl. now rewrite H.
    + split; [intros _|reflexivity]. right. right. now exists error, p1.
  - split; [intros _|reflexivity].
    revert Htry. unfold runCode_try, bind, on_host, setOutput, toast.
    destruct (new_Function_call (code p) (host p)) as [[v h1]|[e h1]|]; simpl; try discriminate.
    + destruct (js_String v h1) as [[s h2]|[e h2]|] eqn:Hstr; simpl; try discriminate.
      intros _. right. left. now exists v, h1.
    + intros _. now left.
Qed.

(** ** Across the components *)

(** X17.  The link of a question in the floating navigation leads to the
    section of that question's card, as far as the browser keeps the
    fragment: whenever the location's hash reads exactly as the link's
    [href] (which the browser grants for ids that need no
    percent-encoding), the sidebar's listener makes the card's section
    id the active one, so the sidebar marks that question. *)
Theorem X17_nav_link_activates_the_section_of_its_card {Num Any : Type}
    (Num_toString : Num -> string) (question : Catalogue.Question Num Any)
    (activeSection : string) (isExpanded : bool) (s : Sidebar.State)
    (location_hash : string) :
  location_hash = fst (fst (FloatingNav.link Num_toString activeSection question)) ->
  Sidebar.activeId (Sidebar.hashchange location_hash s)
  = ConceptCard.section_id (ConceptCard.render question isExpanded)
  /\ Sidebar.is_active (Sidebar.hashchange location_hash s) (Catalogue.id question) = true.
Proof.
  intros ->.
  cbv [FloatingNav.link fst Sidebar.hashchange Sidebar.is_active Sidebar.activeId
       ConceptCard.render ConceptCard.section_id].
  rewrite (js_replace_prefix "#" "" (Catalogue.id question)).
  split; [reflexivity | apply String.eqb_refl].
Qed.

(** X17 on the sample question [hoisting], whose link leads to the hash
    [#hoisting]. *)
Lemma X17_nav_link_activates_the_section_of_its_card_witness :
  Sidebar.activeId (Sidebar.hashchange "#hoisting" Sidebar.initial)
  = ConceptCard.section_id
      (ConceptCard.render
         (SampleCatalogue.question "hoisting" "Core JavaScript" 2 "What is hoisting?") false)
  /\ Sidebar.is_active (Sidebar.hashchange "#hoisting" Sidebar.initial)
       (Catalogue.id
          (SampleCatalogue.question "hoisting" "Core JavaScript" 2 "What is hoisting?"))
     = true.
Proof.
  exact (X17_nav_link_activates_the_section_of_its_card decimal
           (SampleCatalogue.question "hoisting" "Core JavaScript" 2 "What is hoisting?")
           "" false Sidebar.initial "#hoisting" eq_refl).
Defined.

(** X18.  For the catalogue of questions.ts, the command menu and the
    category lists agree: whenever the grouping succeeds, every category
    that lists a question appears in the menu as a group under the
    category's name holding exactly the category's list. *)
Theorem X18_menu_groups_match_the_category_lists {Num Any : Type}
    (questions : list (Catalogue.Question Num Any))
    (gs : list (string * list (Catalogue.Question Num Any)))
    (c : Catalogue.Category Num Any) :
  CommandMenu.grouped (QuestionsData.getAllQuestions questions) = Some gs ->
  In c (QuestionsData.categories questions) ->
  Catalogue.questions c <> [] ->
  In (Catalogue.name c, Catalogue.questions c) gs.
Proof.
  intros Hgs Hc Hne.
  assert (Hlist : Catalogue.questions c
                  = filter (fun q => String.eqb (Catalogue.category q) (Catalogue.name c))
                      questions).
  { simpl in Hc. repeat (destruct Hc as [<-|Hc]; [reflexivity|]). destruct Hc. }
  destruct (grouped_parts _ gs Hgs) as (_ & Hparts & Hall).
  destruct (Catalogue.questions c) as [|q rest] eqn:E; [now elim Hne|].
  assert (Hq : In q (filter (fun q => String.eqb (Catalogue.category q) (Catalogue.name c))
                       questions)) by (rewrite <- Hlist; now left).
  apply filter_In in Hq. destruct Hq as [Hin Hcat]. apply String.eqb_eq in Hcat.
  destruct (Hall q Hin) as (qs & Hentry & _).
  rewrite Hcat in Hentry.
  destruct (Hparts _ _ Hentry) as (_ & Hqs).
  unfold QuestionsData.getAllQuestions in Hqs. rewrite <- Hlist in Hqs. now subst qs.
Qed.

(** X18 on the sample catalogue: the category Core JavaScript. *)
Lemma X18_menu_groups_match_the_category_lists_witness :
  In ("Core JavaScript",
      [ SampleCatalogue.question "var-let-const" "Core JavaScript" 1
          "What is the difference between var, let, and const in JavaScript?";
        SampleCatalogue.question "hoisting" "Core JavaScript" 2 "What is hoisting?" ])
     [ ("Core JavaScript",
        [ SampleCatalogue.question "var-let-const" "Core JavaScript" 1
            "What is the difference between var, let, and const in JavaScript?";
          SampleCatalogue.question "hoisting" "Core JavaScript" 2 "What is hoisting?" ]);
       ("Async JavaScript",
        [ SampleCatalogue.question "promises-then" "Async JavaScript" 12
            "How do JavaScript promises work, and what is the then() method?" ]) ].
Proof.
  refine (X18_menu_groups_match_the_category_lists SampleCatalogue.questions _
            (hd (Catalogue.mkCategory "" "" "" "" [])
               (QuestionsData.categories SampleCatalogue.questions))
            eq_refl _ _).
  - left. reflexivity.
  - discriminate.
Defined.
